(** * Verification of the resume-ai Flask application (src/app.py)

    Shallow embedding of the ATS keyword scorer, the request handlers of
    the signup / login / rewrite / finalize / download / dashboard routes,
    and the two export writers.

    - A character is a Latin-1 code point (U+0000 to U+00FF), held in an
      [ascii] byte.  Python's [str.isspace], [str.split], [str.isalpha],
      [str.lower] and [str.strip] are embedded with their Unicode tables
      on that range; text with a character above U+00FF is outside the
      model.
    - The score [round((score / len(job_keywords)) * 100, 2)] is computed
      in IEEE 754 binary64 arithmetic: [/] and [*] round their exact
      result to the nearest double, ties to even, and [round(x, 2)] rounds
      the exact value of the double [x] to two decimals, ties to even (as
      CPython's correctly rounded [float.__round__] does).  A score is kept
      as its number of hundredths [h]; the float the code stores is the
      double nearest to [h / 100].  Doubles have no upper exponent bound
      here (no overflow to infinity); the scorer's values are at most 100.
    - Files live in one file system keyed by absolute path.  [doc.save],
      [pdf.output] and [add_font] resolve a relative path against the
      process's working directory, Flask's [send_file] against
      [app.root_path]. *)

From Stdlib Require Import ZArith Lia Ascii String QArith.
From stdpp Require Import base list gmap strings sorting.

Open Scope Z_scope.

(** String append computes by [simpl] in this development. *)
#[local] Arguments String.append : simpl nomatch.

(* ------------------------------------------------------------------ *)
(** ** Python string primitives (Latin-1 range)                        *)
(* ------------------------------------------------------------------ *)

Module Py.

(** [str.isspace]: \t \n \v \f \r, the separators \x1c..\x1f, the space,
    NEL (U+0085) and the no-break space (U+00A0). *)
Definition is_space (c : ascii) : bool :=
  let n := Ascii.nat_of_ascii c in
  ((9 <=? n) && (n <=? 13))%nat || ((28 <=? n) && (n <=? 32))%nat
  || (n =? 133)%nat || (n =? 160)%nat.

(** [str.isalpha] on one character: A-Z, a-z, the ordinal indicators
    U+00AA and U+00BA, the micro sign U+00B5, and the Latin-1 letters
    U+00C0..U+00FF except the multiplication and division signs. *)
Definition is_alpha_char (c : ascii) : bool :=
  let n := Ascii.nat_of_ascii c in
  ((65 <=? n) && (n <=? 90))%nat || ((97 <=? n) && (n <=? 122))%nat
  || (n =? 170)%nat || (n =? 181)%nat || (n =? 186)%nat
  || ((192 <=? n) && (n <=? 214))%nat || ((216 <=? n) && (n <=? 246))%nat
  || (248 <=? n)%nat.

(** [str.lower] on one character: A-Z and U+00C0..U+00DE (except U+00D7)
    map to the letter 32 code points above. *)
Definition lower_char (c : ascii) : ascii :=
  let n := Ascii.nat_of_ascii c in
  if ((65 <=? n) && (n <=? 90))%nat || ((192 <=? n) && (n <=? 222) && negb (n =? 215))%nat
  then Ascii.ascii_of_nat (n + 32) else c.

(** [s.lower()] *)
Fixpoint lower (s : string) : string :=
  match s with
  | EmptyString => EmptyString
  | String c s' => String (lower_char c) (lower s')
  end.

Fixpoint all_alpha (s : string) : bool :=
  match s with
  | EmptyString => true
  | String c s' => is_alpha_char c && all_alpha s'
  end.

(** [s.isalpha()]: non-empty and every character alphabetic. *)
Definition isalpha (s : string) : bool :=
  match s with
  | EmptyString => false
  | _ => all_alpha s
  end.

Definition rev_string (cur : list ascii) : string :=
  string_of_list_ascii (rev cur).

(** [s.split()]: split on runs of whitespace, no empty fields.  [cur]
    is the current field, reversed. *)
Fixpoint split_ws_aux (s : string) (cur : list ascii) : list string :=
  match s with
  | EmptyString => match cur with [] => [] | _ => [rev_string cur] end
  | String c s' =>
      if is_space c then
        match cur with
        | [] => split_ws_aux s' []
        | _ => rev_string cur :: split_ws_aux s' []
        end
      else split_ws_aux s' (c :: cur)
  end.

Definition split_ws (s : string) : list string := split_ws_aux s [].

(** [s.split(sep)] for a one-character separator: every occurrence
    cuts, empty fields are kept. *)
Fixpoint split_on_aux (sep : ascii) (s : string) (cur : list ascii)
  : list string :=
  match s with
  | EmptyString => [rev_string cur]
  | String c s' =>
      if Ascii.eqb c sep then rev_string cur :: split_on_aux sep s' []
      else split_on_aux sep s' (c :: cur)
  end.

Definition split_on (sep : ascii) (s : string) : list string :=
  split_on_aux sep s [].

Definition newline : ascii := Ascii.ascii_of_nat 10.

Fixpoint is_prefix (p s : string) : bool :=
  match p, s with
  | EmptyString, _ => true
  | String a p', String b s' => Ascii.eqb a b && is_prefix p' s'
  | String _ _, EmptyString => false
  end.

(** [p in s] *)
Fixpoint contains (s p : string) : bool :=
  match s with
  | EmptyString => is_prefix p s
  | String _ s' => is_prefix p s || contains s' p
  end.

End Py.

(* ------------------------------------------------------------------ *)
(** ** Errors and results                                              *)
(* ------------------------------------------------------------------ *)

(** The exceptions the handlers can raise. *)
Inductive py_error :=
| ZeroDivisionError
| BadRequestKeyError (key : string)
| FileNotFoundError (path : string)
| ValueError (msg : string)
| RuntimeError (msg : string).

Inductive result (A : Type) :=
| Ok (a : A)
| Err (e : py_error).
Arguments Ok {A} a.
Arguments Err {A} e.

(* ------------------------------------------------------------------ *)
(** ** Binary64 arithmetic                                             *)
(* ------------------------------------------------------------------ *)

(** [a / b] rounded to an integer, ties to even ([b > 0]). *)
Definition round_half_even (a b : Z) : Z :=
  let q := a / b in
  let r := a mod b in
  if 2 * r <? b then q
  else if b <? 2 * r then q + 1
  else if Z.even q then q else q + 1.

(** [floor(log2(a / b))] for [a, b > 0]. *)
Definition flog2 (a b : Z) : Z :=
  let l := Z.log2 a - Z.log2 b in
  let j := Z.max 0 (- l) in
  if b * 2 ^ (l + j) <=? a * 2 ^ j then l else l - 1.

(** The exponent of the unit in the last place of the double nearest to
    [a / b]: 53 significant bits, at least 2 ^ -1074 (subnormals). *)
Definition fl_exp (a b : Z) : Z := Z.max (flog2 a b - 52) (-1074).

(** The double nearest to [a / b] ([a > 0]), ties to even. *)
Definition fl_pos (a : Z) (b : positive) : Q :=
  let e := fl_exp a (Zpos b) in
  if e <? 0 then round_half_even (a * 2 ^ (- e)) (Zpos b) # Z.to_pos (2 ^ (- e))
  else inject_Z (round_half_even a (Zpos b * 2 ^ e) * 2 ^ e).

(** Rounding of an exact rational to binary64. *)
Definition fl (q : Q) : Q :=
  match Qnum q with
  | Z0 => 0%Q
  | Zpos _ => fl_pos (Qnum q) (Qden q)
  | Zneg _ => Qopp (fl_pos (- Qnum q) (Qden q))
  end.

(** [a / n] on Python ints: true division, correctly rounded. *)
Definition py_div (a n : Z) : Q := fl (a # Z.to_pos n).

(** [x * y] on floats. *)
Definition py_mul (x y : Q) : Q := fl (x * y).

(** [round(x, 2)] on a float, in hundredths: the exact value of [x]
    rounded to two decimals, ties to even. *)
Definition py_round2 (x : Q) : Z := round_half_even (Qnum x * 100) (Zpos (Qden x)).

(* ------------------------------------------------------------------ *)
(** ** The ATS match score (app.py lines 90-92)                        *)
(* ------------------------------------------------------------------ *)

(** [job_keywords = [word.lower() for word in job_desc.split() if word.isalpha()]] *)
Definition job_keywords (job_desc : string) : list string :=
  map Py.lower (List.filter (fun w => Py.isalpha w) (Py.split_ws job_desc)).

(** [score = sum(1 for kw in job_keywords if kw in resume_text.lower())] *)
Definition keyword_score (job_keywords : list string) (resume_text : string) : Z :=
  let low := Py.lower resume_text in
  fold_left (fun acc kw => if Py.contains low kw then acc + 1 else acc)
    job_keywords 0.

(** [match_percent = round((score / len(job_keywords)) * 100, 2)], in
    hundredths of a percent; [ZeroDivisionError] when there is no keyword. *)
Definition match_percent (job_desc resume_text : string) : result Z :=
  let kws := job_keywords job_desc in
  let score := keyword_score kws resume_text in
  let n := Z.of_nat (length kws) in
  if n =? 0 then Err ZeroDivisionError
  else Ok (py_round2 (py_mul (py_div score n) (inject_Z 100))).

(* ------------------------------------------------------------------ *)
(** ** Data model: session, Resume table, files, responses             *)
(* ------------------------------------------------------------------ *)

(** The Flask session dictionary, one field per key the code uses. *)
Record session := mkSession {
  s_user_id : option Z;
  s_transformed_resume : option string;
  s_score : option Z;
  s_final_text : option string
}.

Definition empty_session : session := mkSession None None None None.

(** A row of the [Resume] table (the TransformationRecord). *)
Record resume_rec := mkResume {
  r_user_id : Z;
  r_original_text : string;
  r_transformed_text : string;
  r_score : Z;
  r_timestamp : Z
}.

(** The content of a python-docx run: [w:t] text, [w:tab] and [w:br]. *)
Inductive run_item :=
| RText (text : string)
| RTab
| RBreak.

(** A python-docx document: its body blocks in order.  A paragraph
    holds the content of its one run. *)
Inductive block :=
| Heading (text : string) (level : Z)
| Paragraph (runs : list run_item).

Definition document := list block.

(** An FPDF document: the font in use and the multi_cell texts. *)
Record pdf := mkPdf {
  pdf_font : string;
  pdf_font_size : Z;
  pdf_cells : list string
}.

(** Files on local storage. *)
Inductive artifact :=
| DocxFile (d : document)
| PdfFile (p : pdf)
| FontFile.

Abbreviation filesystem := (gmap string artifact).

(** The process's working directory and Flask's [app.root_path]. *)
Record env := mkEnv {
  cwd : string;
  root_path : string
}.

Definition abs_path (dir rel : string) : string := (dir ++ "/" ++ rel)%string.

Inductive context :=
| NoContext
| CtxError (msg : string)
| CtxTransformed (transformed_resume : string) (score : Z)
| CtxResumes (resumes : list resume_rec).

Inductive response :=
| Redirect (url : string)
| Render (template : string) (ctx : context)
| SendFile (path : string) (file : artifact).

(** [request.form[key]] over the submitted fields. *)
Fixpoint form_get (key : string) (form : list (string * string)) : option string :=
  match form with
  | [] => None
  | (k, v) :: form' => if String.eqb k key then Some v else form_get key form'
  end.

Definition docx_path : string := "final_resume.docx".

(** [send_file(path, as_attachment=True)]: a relative path is read from
    [app.root_path]. *)
Definition send_file (e : env) (fs : filesystem) (path : string) : result response :=
  match fs !! abs_path (root_path e) path with
  | Some a => Ok (SendFile path a)
  | None => Err (FileNotFoundError (abs_path (root_path e) path))
  end.

(* ------------------------------------------------------------------ *)
(** ** /index POST (app.py lines 73-121)                               *)
(* ------------------------------------------------------------------ *)

Definition nl : string := String Py.newline EmptyString.

(** The pdfplumber loop: [resume_text += text + "\n"] for every page
    whose [extract_text()] is neither [None] nor empty. *)
Definition extract_resume_text (pages : list (option string)) : string :=
  fold_left (fun acc page =>
      match page with
      | Some text => if String.eqb text "" then acc else (acc ++ text ++ nl)%string
      | None => acc
      end) pages ""%string.

Definition indent : string := (nl ++ "        ")%string.

(** The f-string prompt. *)
Definition rewrite_prompt (resume_text job_desc : string) : string :=
  (indent ++ "Rewrite the following resume to better match the job description below."
   ++ indent ++ "Keep it professional, ATS-friendly, and tailored to the role."
   ++ nl ++ indent ++ "Resume:" ++ indent ++ resume_text
   ++ nl ++ indent ++ "Job Description:" ++ indent ++ job_desc ++ indent)%string.

Fixpoint lstrip (s : string) : string :=
  match s with
  | String c s' => if Py.is_space c then lstrip s' else s
  | EmptyString => EmptyString
  end.

Definition string_rev (s : string) : string :=
  string_of_list_ascii (rev (list_ascii_of_string s)).

(** [s.strip()] *)
Definition py_strip (s : string) : string :=
  string_rev (lstrip (string_rev (lstrip s))).

(** POST /index.  [resume_file] is [request.files.get("resume")] as the
    pages pdfplumber reads; [gemini] is the remote model, prompt to
    response text; [now] is [datetime.utcnow()]. *)
Definition index_post (sess : session) (db : list resume_rec)
    (form : list (string * string)) (resume_file : option (list (option string)))
    (gemini : string -> string) (now : Z)
  : result (session * list resume_rec * response) :=
  match s_user_id sess with
  | None => Ok (sess, db, Redirect "/login")
  | Some uid =>
    match resume_file with
    | None => Err (BadRequestKeyError "resume")
    | Some pages =>
      match form_get "job_desc" form with
      | None => Err (BadRequestKeyError "job_desc")
      | Some job_desc =>
        let resume_text := extract_resume_text pages in
        match match_percent job_desc resume_text with
        | Err e => Err e
        | Ok mp =>
          let transformed := py_strip (gemini (rewrite_prompt resume_text job_desc)) in
          let row := mkResume uid resume_text transformed mp now in
          let sess' := mkSession (s_user_id sess) (Some transformed) (Some mp)
                                 (s_final_text sess) in
          Ok (sess', db ++ [row],
              Render "index.html" (CtxTransformed transformed mp))
        end
      end
    end
  end.

(* ------------------------------------------------------------------ *)
(** ** Export writers and /finalize, /download (app.py lines 123-161)  *)
(* ------------------------------------------------------------------ *)

Definition tab_char : ascii := Ascii.ascii_of_nat 9.
Definition cr_char : ascii := Ascii.ascii_of_nat 13.

(** The characters lxml accepts in element text (XML 1.0 on the Latin-1
    range): tab, line feed, carriage return and everything from U+0020. *)
Definition xml_char_ok (c : ascii) : bool :=
  let n := Ascii.nat_of_ascii c in
  (n =? 9)%nat || (n =? 10)%nat || (n =? 13)%nat || (32 <=? n)%nat.

Definition xml_ok (s : string) : bool := forallb xml_char_ok (list_ascii_of_string s).

Definition xml_error : py_error :=
  ValueError "All strings must be XML compatible: Unicode or ASCII, no NULL bytes or control characters".

(** python-docx [_RunContentAppender.flush]: the buffered characters
    (reversed in [buf]) become one [w:t] element, whose text lxml checks. *)
Definition flush (buf : list ascii) : result (list run_item) :=
  match buf with
  | [] => Ok []
  | _ => let t := Py.rev_string buf in
         if xml_ok t then Ok [RText t] else Err xml_error
  end.

(** [run.text = s] ([_RunContentAppender.append]): "\t" adds a [w:tab],
    "\n" and "\r" add a [w:br], other characters are buffered. *)
Fixpoint append_text (s : string) (buf : list ascii) : result (list run_item) :=
  match s with
  | EmptyString => flush buf
  | String c s' =>
    if Ascii.eqb c tab_char || Ascii.eqb c Py.newline || Ascii.eqb c cr_char then
      match flush buf with
      | Err e => Err e
      | Ok rs =>
        match append_text s' [] with
        | Err e => Err e
        | Ok rest => Ok (rs ++ (if Ascii.eqb c tab_char then RTab else RBreak) :: rest)
        end
      end
    else append_text s' (c :: buf)
  end.

(** [doc.add_paragraph(text)]: a new paragraph, with a run holding
    [text] when [text] is not empty. *)
Definition add_paragraph (doc : document) (text : string) : result document :=
  if String.eqb text "" then Ok (doc ++ [Paragraph []])
  else match append_text text [] with
       | Ok rs => Ok (doc ++ [Paragraph rs])
       | Err e => Err e
       end.

(** Document writer: [Document()], [add_heading("Final Resume", level=1)],
    then [add_paragraph(line)] for each [line] of [final_text.split("\n")]. *)
Definition build_document (final_text : string) : result document :=
  fold_left (fun acc line => match acc with
                             | Ok d => add_paragraph d line
                             | Err e => Err e
                             end)
    (Py.split_on Py.newline final_text) (Ok [Heading "Final Resume" 1]).


(** POST /finalize: the document is built, then saved in the working
    directory, then [session["final_text"]] is set. *)
Definition finalize (e : env) (sess : session) (fs : filesystem)
    (form : list (string * string)) : result (session * filesystem * response) :=
  match form_get "final_text" form with
  | None => Err (BadRequestKeyError "final_text")
  | Some final_text =>
    match build_document final_text with
    | Err err => Err err
    | Ok doc =>
      let fs' := <[abs_path (cwd e) docx_path := DocxFile doc]> fs in
      let sess' := mkSession (s_user_id sess) (s_transformed_resume sess)
                             (s_score sess) (Some final_text) in
      Ok (sess', fs', Redirect "/download-options")
    end
  end.

(** GET /download/docx *)
Definition download_docx (e : env) (sess : session) (fs : filesystem) : result response :=
  send_file e fs docx_path.


(* ------------------------------------------------------------------ *)
(** ** /dashboard (app.py lines 164-169)                               *)
(* ------------------------------------------------------------------ *)

(** [order_by(Resume.timestamp.desc())] *)
Definition newest_first (a b : resume_rec) : Prop := r_timestamp b <= r_timestamp a.

#[global] Instance newest_first_dec : RelDecision newest_first :=
  fun a b => decide (r_timestamp b <= r_timestamp a).

(** [Resume.query.filter_by(user_id=uid).order_by(Resume.timestamp.desc()).all()];
    the database's sort is modelled by a merge sort on the timestamp. *)
Definition query_resumes (db : list resume_rec) (uid : Z) : list resume_rec :=
  merge_sort newest_first (List.filter (fun r => bool_decide (r_user_id r = uid)) db).

Definition dashboard (sess : session) (db : list resume_rec) : response :=
  match s_user_id sess with
  | None => Redirect "/login"
  | Some uid => Render "dashboard.html" (CtxResumes (query_resumes db uid))
  end.

(* ------------------------------------------------------------------ *)
(** ** Accounts: /, /signup, /login, /logout, /download-options        *)
(*     (app.py lines 29-71, 139-141, 171-174)                          *)
(* ------------------------------------------------------------------ *)

(** A row of the [User] table. *)
Record user := mkUser {
  u_id : Z;
  u_name : string;
  u_email : string;
  u_password : string
}.

(** A failed commit: the unique constraint on [User.email]. *)
Inductive db_error :=
| PyError (e : py_error)
| IntegrityError (column : string).

(** The integer primary key the database assigns to a new row: one more
    than the largest key in the table (SQLite's rowid rule). *)
Definition next_user_id (users : list user) : Z :=
  fold_left Z.max (map u_id users) 0 + 1.

Definition user_has_email (email : string) (u : user) : bool :=
  String.eqb (u_email u) email.

Section Accounts.

(** werkzeug's [generate_password_hash] (salted with a fresh [salt]) and
    [check_password_hash]. *)
Variable generate_password_hash : string -> string -> string.
Variable check_password_hash : string -> string -> bool.

(** POST /signup: [request.form] is read for name, email, password in
    that order; the commit fails when the email is already taken. *)
Definition signup_post (users : list user) (form : list (string * string))
    (salt : string) : db_error + (list user * response) :=
  match form_get "name" form with
  | None => inl (PyError (BadRequestKeyError "name"))
  | Some name =>
    match form_get "email" form with
    | None => inl (PyError (BadRequestKeyError "email"))
    | Some email =>
      match form_get "password" form with
      | None => inl (PyError (BadRequestKeyError "password"))
      | Some pw =>
        let password := generate_password_hash salt pw in
        if existsb (user_has_email email) users then inl (IntegrityError "email")
        else inr (users ++ [mkUser (next_user_id users) name email password],
                  Redirect "/login")
      end
    end
  end.

(** POST /login: [User.query.filter_by(email=email).first()], then
    [session["user_id"] = user.id] on a matching password. *)
Definition login_post (users : list user) (sess : session)
    (form : list (string * string)) : result (session * response) :=
  match form_get "email" form with
  | None => Err (BadRequestKeyError "email")
  | Some email =>
    match form_get "password" form with
    | None => Err (BadRequestKeyError "password")
    | Some password =>
      match List.find (user_has_email email) users with
      | Some u =>
        if check_password_hash (u_password u) password then
          Ok (mkSession (Some (u_id u)) (s_transformed_resume sess) (s_score sess)
                        (s_final_text sess), Redirect "/index")
        else Ok (sess, Render "login.html" (CtxError "Invalid credentials"))
      | None => Ok (sess, Render "login.html" (CtxError "Invalid credentials"))
      end
    end
  end.

End Accounts.

(** GET / *)
Definition home : response := Redirect "/signup".

(** GET /logout: [session.clear()]. *)
Definition logout (sess : session) : session * response :=
  (empty_session, Redirect "/login").

(** GET /index *)
Definition index_get (sess : session) : response :=
  match s_user_id sess with
  | None => Redirect "/login"
  | Some _ => Render "index.html" NoContext
  end.

(* ------------------------------------------------------------------ *)
(** ** Specification-side definitions and reachable states             *)
(* ------------------------------------------------------------------ *)

Definition to_option {A} (r : result A) : option A :=
  match r with Ok a => Some a | Err _ => None end.

(** The match score in the words of the specification, in exact
    arithmetic: lowercased alphabetic whitespace tokens; the number of
    them found, compared case-insensitively, inside the resume text; that
    count over the number of keywords, times 100, to two decimals.
    [None] when there is no keyword. *)
Definition spec_match_percent (job_desc resume_text : string) : option Z :=
  let keywords := map Py.lower (List.filter (fun w => Py.isalpha w) (Py.split_ws job_desc)) in
  let found := List.filter (fun kw => Py.contains (Py.lower resume_text) (Py.lower kw)) keywords in
  match length keywords with
  | O => None
  | total => Some (round_half_even (Z.of_nat (length found) * 100 * 100) (Z.of_nat total))
  end.

(** [round((c / n) * 100, 2)] in hundredths, in binary64. *)
Definition pct (c n : Z) : Z := py_round2 (py_mul (py_div c n) (inject_Z 100)).

(** The specification's keywords and count, with the division, the
    product and the rounding done in binary64 as Python does them. *)
Definition spec_match_percent_binary64 (job_desc resume_text : string) : option Z :=
  let keywords := map Py.lower (List.filter (fun w => Py.isalpha w) (Py.split_ws job_desc)) in
  let found := List.filter (fun kw => Py.contains (Py.lower resume_text) (Py.lower kw)) keywords in
  match length keywords with
  | O => None
  | total => Some (pct (Z.of_nat (length found)) (Z.of_nat total))
  end.

(** The [Resume] rows that a sequence of requests can leave in the
    database: only POST /index inserts into that table. *)
Inductive index_reachable : list resume_rec -> Prop :=
| reach_init : index_reachable []
| reach_index db sess form file gemini now sess' db' resp :
    index_reachable db ->
    index_post sess db form file gemini now = Ok (sess', db', resp) ->
    index_reachable db'.

Definition score_in_range (r : resume_rec) : Prop := 0 <= r_score r <= 10000.

Definition example_job_desc : string :=
  "Looking for a Python Developer with SQL skills".
Definition example_resume_text : string :=
  "Experienced Python developer with strong SQL and Java background".

(** [k] copies of the word [w], each followed by a space. *)
Fixpoint words (w : string) (k : nat) : string :=
  match k with
  | O => ""%string
  | S k' => (w ++ " " ++ words w k')%string
  end.

(** A job description with 160 keywords, 23 of them "python". *)
Definition jd_23_of_160 : string := (words "python" 23 ++ words "rust" 137)%string.

Definition logged_in (uid : Z) : session := mkSession (Some uid) None None None.

(** Number of occurrences of [sep] in [s]. *)
Fixpoint count_char (sep : ascii) (s : string) : nat :=
  match s with
  | EmptyString => 0
  | String c s' => (if Ascii.eqb c sep then 1 else 0) + count_char sep s'
  end.

(** python-docx [Run.text]: [w:t] text, "\t" for [w:tab], "\n" for [w:br]. *)
Fixpoint runs_text (rs : list run_item) : string :=
  match rs with
  | [] => ""%string
  | RText t :: rs' => (t ++ runs_text rs')%string
  | RTab :: rs' => String tab_char (runs_text rs')
  | RBreak :: rs' => String Py.newline (runs_text rs')
  end.

(** [Paragraph.text]; a heading is a paragraph of the document like any
    other. *)
Definition block_text (b : block) : string :=
  match b with Heading t _ => t | Paragraph rs => runs_text rs end.

(** The plain text of the document read back paragraph by paragraph:
    ["\n".join(p.text for p in doc.paragraphs)]. *)
Definition docx_plain_text (d : document) : string :=
  String.concat nl (map block_text d).

(** [s.rstrip()] *)
Definition rstrip (s : string) : string := string_rev (lstrip (string_rev s)).

(** [s.replace("\r", "\n")] *)
Fixpoint replace_cr (s : string) : string :=
  match s with
  | EmptyString => EmptyString
  | String c s' => String (if Ascii.eqb c cr_char then Py.newline else c) (replace_cr s')
  end.

(** A paragraph written for [line]: it reads back as [line] with each
    "\r" turned into "\n", and an empty line gives a paragraph without
    content. *)
Definition paragraph_of_line (line : string) (b : block) : Prop :=
  exists rs, b = Paragraph rs /\ runs_text rs = replace_cr line /\
             (line = ""%string -> rs = []).

Definition line1_blank_line3 : string := ("Line1" ++ nl ++ nl ++ "Line3")%string.


(** "Line1\r\nLine2": a Windows line break. *)
Definition crlf_text : string :=
  ("Line1" ++ String cr_char (String Py.newline "Line2"))%string.

(** The process started in the application's directory. *)
Definition app_env : env := mkEnv "/app" "/app".



Definition dashboard_db : list resume_rec :=
  [mkResume 1 "a" "A" 5000 10; mkResume 2 "b" "B" 7500 20; mkResume 1 "c" "C" 2500 30].


(** The [User] tables a sequence of requests can produce: only POST
    /signup inserts into that table. *)
Inductive users_reachable : list user -> Prop :=
| users_init : users_reachable []
| users_signup gen users form salt users' resp :
    users_reachable users ->
    signup_post gen users form salt = inr (users', resp) ->
    users_reachable users'.

(** [str.lstrip()] on a list of characters. *)
Fixpoint lstrip_l (l : list ascii) : list ascii :=
  match l with
  | c :: l' => if Py.is_space c then lstrip_l l' else l
  | [] => []
  end.

Definition hd_not_space (l : list ascii) : Prop :=
  forall c, hd_error l = Some c -> Py.is_space c = false.

(* ------------------------------------------------------------------ *)
(** ** Lemmas on the Python primitives                                 *)
(* ------------------------------------------------------------------ *)

Lemma lower_char_idem (c : ascii) : Py.lower_char (Py.lower_char c) = Py.lower_char c.
Proof. destruct c as [[] [] [] [] [] [] [] []]; reflexivity. Qed.

Lemma lower_idem (s : string) : Py.lower (Py.lower s) = Py.lower s.
Proof. induction s as [|c s IH]; simpl; [done|]. by rewrite lower_char_idem, IH. Qed.

Lemma map_lower_idem (l : list string) :
  map Py.lower (map Py.lower l) = map Py.lower l.
Proof. induction l as [|x l IH]; simpl; [done|]. by rewrite lower_idem, IH. Qed.

Lemma keyword_score_aux (f : string -> bool) (l : list string) (acc : Z) :
  fold_left (fun acc kw => if f kw then acc + 1 else acc) l acc
  = acc + Z.of_nat (length (List.filter f l)).
Proof.
  revert acc; induction l as [|x l IH]; intros acc; simpl; [lia|].
  rewrite IH. simpl. destruct (f x); simpl; lia.
Qed.

Lemma keyword_score_count (kws : list string) (rt : string) :
  keyword_score kws rt
  = Z.of_nat (length (List.filter (fun kw => Py.contains (Py.lower rt) kw) kws)).
Proof. unfold keyword_score; cbv zeta. rewrite keyword_score_aux. apply Z.add_0_l. Qed.

Lemma filter_length_le {A} (f : A -> bool) (l : list A) :
  (length (List.filter f l) <= length l)%nat.
Proof.
  induction l as [|x l IH]; [simpl; lia|].
  simpl. destruct (f x); simpl; lia.
Qed.

Lemma filter_length_mono {A} (f g : A -> bool) (l : list A) :
  (forall x, In x l -> f x = true -> g x = true) ->
  (length (List.filter f l) <= length (List.filter g l))%nat.
Proof.
  induction l as [|x l IH]; intros Hfg; [simpl; lia|].
  simpl.
  assert (IH' := IH (fun y Hy => Hfg y (or_intror Hy))).
  destruct (f x) eqn:Ef.
  - rewrite (Hfg x (or_introl eq_refl) Ef). simpl. lia.
  - destruct (g x); simpl; lia.
Qed.

(* ------------------------------------------------------------------ *)
(** ** Rounding and binary64                                           *)
(* ------------------------------------------------------------------ *)

Lemma round_half_even_mono (a1 a2 b : Z) :
  0 < b -> a1 <= a2 -> round_half_even a1 b <= round_half_even a2 b.
Proof.
  intros Hb Ha. unfold round_half_even.
  pose proof (Z.div_le_mono a1 a2 b Hb Ha) as Hq.
  pose proof (Z.div_mod a1 b ltac:(lia)) as E1.
  pose proof (Z.div_mod a2 b ltac:(lia)) as E2.
  pose proof (Z.mod_pos_bound a1 b Hb) as B1.
  pose proof (Z.mod_pos_bound a2 b Hb) as B2.
  set (q1 := a1 / b) in *; set (q2 := a2 / b) in *.
  set (r1 := a1 mod b) in *; set (r2 := a2 mod b) in *.
  clearbody q1 q2 r1 r2.
  destruct (Z.eq_dec q1 q2) as [<-|Hne].
  - assert (r1 <= r2) by lia.
    destruct (Z.even q1);
      repeat match goal with |- context [?x <? ?y] => destruct (Z.ltb_spec x y) end;
      lia.
  - destruct (Z.even q1), (Z.even q2);
      repeat match goal with |- context [?x <? ?y] => destruct (Z.ltb_spec x y) end;
      lia.
Qed.

Lemma round_half_even_exact (k b : Z) : 0 < b -> round_half_even (k * b) b = k.
Proof.
  intros Hb. unfold round_half_even.
  rewrite Z.div_mul by lia. rewrite Z.mod_mul by lia.
  repeat match goal with |- context [?x <? ?y] => destruct (Z.ltb_spec x y) end;
    lia.
Qed.

Lemma round_half_even_scale (a b k : Z) :
  0 < b -> 0 < k -> round_half_even (a * k) (b * k) = round_half_even a b.
Proof.
  intros Hb Hk. unfold round_half_even.
  rewrite Z.div_mul_cancel_r by lia. rewrite Z.mul_mod_distr_r by lia.
  pose proof (Z.mod_pos_bound a b Hb).
  set (q := a / b). set (r := a mod b).
  repeat match goal with |- context [?x <? ?y] => destruct (Z.ltb_spec x y) end;
    try nia; reflexivity.
Qed.

Lemma round_half_even_mono_q (a1 b1 a2 b2 : Z) :
  0 < b1 -> 0 < b2 -> a1 * b2 <= a2 * b1 ->
  round_half_even a1 b1 <= round_half_even a2 b2.
Proof.
  intros H1 H2 H.
  rewrite <- (round_half_even_scale a1 b1 b2), <- (round_half_even_scale a2 b2 b1) by lia.
  rewrite (Z.mul_comm b2 b1). apply round_half_even_mono; lia.
Qed.

Lemma round_half_even_nonneg (a b : Z) : 0 < b -> 0 <= a -> 0 <= round_half_even a b.
Proof.
  intros Hb Ha. rewrite <- (round_half_even_exact 0 b Hb).
  apply round_half_even_mono; lia.
Qed.

Lemma pow2_pos (k : Z) : 0 <= k -> 0 < 2 ^ k.
Proof. intros. apply Z.pow_pos_nonneg; lia. Qed.

Lemma pow2_add (k m : Z) : 0 <= k -> 0 <= m -> 2 ^ (k + m) = 2 ^ k * 2 ^ m.
Proof. intros. apply Z.pow_add_r; lia. Qed.

Lemma pow2_le (k m : Z) : 0 <= k <= m -> 2 ^ k <= 2 ^ m.
Proof. intros. apply Z.pow_le_mono_r; lia. Qed.

(** Comparing a / b with 2 ^ k does not depend on the common scale 2 ^ j. *)
Lemma scale_le_iff (a b k j j' : Z) :
  0 <= j -> 0 <= j' -> 0 <= k + j -> 0 <= k + j' ->
  b * 2 ^ (k + j) <= a * 2 ^ j <-> b * 2 ^ (k + j') <= a * 2 ^ j'.
Proof.
  assert (Gen : forall j j', 0 <= j <= j' -> 0 <= k + j ->
            b * 2 ^ (k + j) <= a * 2 ^ j <-> b * 2 ^ (k + j') <= a * 2 ^ j').
  { intros i i' Hi Hki.
    replace (k + i') with ((k + i) + (i' - i)) by lia.
    replace i' with (i + (i' - i)) at 2 by lia.
    rewrite (pow2_add (k + i) (i' - i)), (pow2_add i (i' - i)) by lia.
    pose proof (pow2_pos (i' - i) ltac:(lia)).
    rewrite !Z.mul_assoc. split; intros Hle.
    - apply Z.mul_le_mono_nonneg_r; lia.
    - apply (Z.mul_le_mono_pos_r _ _ (2 ^ (i' - i))); lia. }
  intros Hj Hj' Hkj Hkj'. destruct (Z.le_ge_cases j j').
  - apply Gen; lia.
  - symmetry. apply Gen; lia.
Qed.

Lemma flog2_spec (a b j : Z) :
  0 < a -> 0 < b -> 0 <= j -> 0 <= flog2 a b + j ->
  b * 2 ^ (flog2 a b + j) <= a * 2 ^ j /\ a * 2 ^ j < b * 2 ^ (flog2 a b + 1 + j).
Proof.
  intros Ha Hb Hj.
  pose proof (Z.log2_spec a Ha) as [La Ua].
  pose proof (Z.log2_spec b Hb) as [Lb Ub].
  pose proof (Z.log2_nonneg a). pose proof (Z.log2_nonneg b).
  unfold flog2. set (la := Z.log2 a) in *. set (lb := Z.log2 b) in *.
  set (l := la - lb). set (j0 := Z.max 0 (- l)).
  rewrite <- !Z.add_1_r in *.
  (* a * 2^i < b * 2^(l + 1 + i) *)
  assert (U : forall i, 0 <= i -> 0 <= l + 1 + i -> a * 2 ^ i < b * 2 ^ (l + 1 + i)).
  { intros i Hi Hli.
    assert (E : 2 ^ (la + 1 + i) = 2 ^ lb * 2 ^ (l + 1 + i)).
    { rewrite <- pow2_add by lia. f_equal. unfold l. lia. }
    assert (a * 2 ^ i < 2 ^ (la + 1) * 2 ^ i).
    { apply Z.mul_lt_mono_pos_r; [apply pow2_pos|]; lia. }
    rewrite <- pow2_add in H1 by lia.
    assert (2 ^ lb * 2 ^ (l + 1 + i) <= b * 2 ^ (l + 1 + i)).
    { apply Z.mul_le_mono_nonneg_r; [apply Z.lt_le_incl, pow2_pos|]; lia. }
    lia. }
  assert (L : forall i, 0 <= i -> 0 <= l - 1 + i -> b * 2 ^ (l - 1 + i) < a * 2 ^ i).
  { intros i Hi Hli.
    assert (E : 2 ^ (la + i) = 2 ^ (lb + 1) * 2 ^ (l - 1 + i)).
    { rewrite <- pow2_add by lia. f_equal. unfold l. lia. }
    assert (b * 2 ^ (l - 1 + i) < 2 ^ (lb + 1) * 2 ^ (l - 1 + i)).
    { apply Z.mul_lt_mono_pos_r; [apply pow2_pos|]; lia. }
    assert (2 ^ la * 2 ^ i <= a * 2 ^ i).
    { apply Z.mul_le_mono_nonneg_r; [apply Z.lt_le_incl, pow2_pos|]; lia. }
    rewrite <- pow2_add in H2 by lia. lia. }
  destruct (Z.leb_spec (b * 2 ^ (l + j0)) (a * 2 ^ j0)) as [C|C]; intros Hlj.
  - split.
    + assert (0 <= j0 /\ 0 <= l + j0) as [J1 J2] by (unfold j0; lia).
      apply (scale_le_iff a b l j0 j); [lia|lia|lia|lia|exact C].
    + apply U; lia.
  - split.
    + apply Z.lt_le_incl, L; lia.
    + replace (l - 1 + 1 + j) with (l + j) by lia.
      apply Z.nle_gt. intros C'. apply (proj1 (Z.lt_nge _ _) C).
      assert (0 <= j0 /\ 0 <= l + j0) as [J1 J2] by (unfold j0; lia).
      apply (scale_le_iff a b l j j0); [lia|lia|lia|lia|exact C'].
Qed.

Lemma flog2_mono (a1 b1 a2 b2 : Z) :
  0 < a1 -> 0 < b1 -> 0 < a2 -> 0 < b2 -> a1 * b2 <= a2 * b1 ->
  flog2 a1 b1 <= flog2 a2 b2.
Proof.
  intros A1 B1 A2 B2 H.
  set (g1 := flog2 a1 b1). set (g2 := flog2 a2 b2).
  destruct (Z.le_gt_cases g1 g2) as [|Hgt]; [done|exfalso].
  set (j := Z.max 0 (- g2)).
  assert (Hj : 0 <= j /\ 0 <= g2 + j) by (unfold j; lia).
  destruct (flog2_spec a1 b1 j A1 B1 ltac:(lia) ltac:(unfold g1 in Hgt; lia)) as [S1 _].
  destruct (flog2_spec a2 b2 j A2 B2 ltac:(lia) ltac:(lia)) as [_ S2].
  fold g1 in S1. fold g2 in S2.
  assert (P : 2 ^ (g2 + 1 + j) <= 2 ^ (g1 + j)) by (apply pow2_le; lia).
  pose proof (pow2_pos j ltac:(lia)).
  assert (X1 : b1 * 2 ^ (g1 + j) * b2 <= a1 * 2 ^ j * b2)
    by (apply Z.mul_le_mono_nonneg_r; lia).
  assert (X2 : a2 * 2 ^ j * b1 < b2 * 2 ^ (g2 + 1 + j) * b1)
    by (apply Z.mul_lt_mono_pos_r; lia).
  assert (X3 : a1 * b2 * 2 ^ j <= a2 * b1 * 2 ^ j)
    by (apply Z.mul_le_mono_nonneg_r; lia).
  assert (X4 : b1 * b2 * 2 ^ (g2 + 1 + j) <= b1 * b2 * 2 ^ (g1 + j))
    by (apply Z.mul_le_mono_nonneg_l; lia).
  lia.
Qed.

Lemma fl_exp_neg (a b : Z) :
  0 < a -> 0 < b -> a < 2 ^ 52 * b -> fl_exp a b < 0.
Proof.
  intros A B H. unfold fl_exp. set (g := flog2 a b).
  destruct (Z.lt_ge_cases g 52) as [|Hg]; [lia|exfalso].
  set (j := Z.max 0 (- g)).
  destruct (flog2_spec a b j A B ltac:(unfold j; lia) ltac:(unfold j, g; lia)) as [S _].
  fold g in S. pose proof (pow2_pos j ltac:(unfold j; lia)).
  assert (P : 2 ^ (52 + j) <= 2 ^ (g + j)) by (apply pow2_le; unfold j; lia).
  rewrite pow2_add in P by (unfold j; lia).
  assert (b * (2 ^ 52 * 2 ^ j) <= b * 2 ^ (g + j)) by (apply Z.mul_le_mono_nonneg_l; lia).
  assert (a * 2 ^ j < 2 ^ 52 * b * 2 ^ j) by (apply Z.mul_lt_mono_pos_r; lia).
  lia.
Qed.

(** With a negative exponent [e], the scaled value [a / b * 2 ^ -e] is
    below 2 ^ 53, and at least 2 ^ 52 unless [e] is the subnormal one. *)
Lemma mant_upper (a b : Z) :
  0 < a -> 0 < b -> fl_exp a b < 0 -> a * 2 ^ (- fl_exp a b) < 2 ^ 53 * b.
Proof.
  intros A B He. set (s := - fl_exp a b).
  assert (Hs : flog2 a b + s <= 52) by (unfold s, fl_exp; lia).
  set (t := Z.max 0 (- (flog2 a b + s))).
  destruct (flog2_spec a b (s + t) A B ltac:(unfold t, s; lia) ltac:(unfold t; lia))
    as [_ S].
  assert (P : 2 ^ (flog2 a b + 1 + (s + t)) <= 2 ^ (53 + t)) by (apply pow2_le; unfold t; lia).
  assert (b * 2 ^ (flog2 a b + 1 + (s + t)) <= b * 2 ^ (53 + t))
    by (apply Z.mul_le_mono_nonneg_l; lia).
  rewrite (pow2_add s t) in S by (unfold s, t; lia).
  rewrite (pow2_add 53 t) in H by (unfold t; lia).
  pose proof (pow2_pos t ltac:(unfold t; lia)).
  apply (Z.mul_lt_mono_pos_r (2 ^ t)); [lia|]. lia.
Qed.

Lemma mant_lower (a b : Z) :
  0 < a -> 0 < b -> fl_exp a b = flog2 a b - 52 -> fl_exp a b < 0 ->
  2 ^ 52 * b <= a * 2 ^ (- fl_exp a b).
Proof.
  intros A B He Hn.
  destruct (flog2_spec a b (- fl_exp a b) A B ltac:(lia) ltac:(lia)) as [S _].
  replace (flog2 a b + - fl_exp a b) with 52 in S by lia. lia.
Qed.

Lemma fl_pos_mono (a1 a2 : Z) (b1 b2 : positive) :
  0 < a1 -> 0 < a2 -> a1 * Zpos b2 <= a2 * Zpos b1 -> a2 < 2 ^ 52 * Zpos b2 ->
  (fl_pos a1 b1 <= fl_pos a2 b2)%Q.
Proof.
  intros A1 A2 H Hb.
  assert (N2 := fl_exp_neg a2 (Zpos b2) A2 ltac:(lia) Hb).
  assert (Hg := flog2_mono a1 (Zpos b1) a2 (Zpos b2) A1 ltac:(lia) A2 ltac:(lia) H).
  assert (Hle : fl_exp a1 (Zpos b1) <= fl_exp a2 (Zpos b2)) by (unfold fl_exp; lia).
  assert (N1 : fl_exp a1 (Zpos b1) < 0) by lia.
  unfold fl_pos. rewrite (proj2 (Z.ltb_lt _ _) N1), (proj2 (Z.ltb_lt _ _) N2).
  set (e1 := fl_exp a1 (Zpos b1)) in *. set (e2 := fl_exp a2 (Zpos b2)) in *.
  unfold Qle; simpl.
  pose proof (pow2_pos (- e1) ltac:(lia)). pose proof (pow2_pos (- e2) ltac:(lia)).
  rewrite !Z2Pos.id by lia.
  set (M1 := round_half_even (a1 * 2 ^ (- e1)) (Zpos b1)).
  set (M2 := round_half_even (a2 * 2 ^ (- e2)) (Zpos b2)).
  destruct (Z.eq_dec e1 e2) as [E|E].
  - assert (M1 <= M2).
    { unfold M1, M2. rewrite E. apply round_half_even_mono_q; [lia|lia|].
      pose proof (pow2_pos (- e2) ltac:(lia)).
      assert (a1 * Zpos b2 * 2 ^ (- e2) <= a2 * Zpos b1 * 2 ^ (- e2))
        by (apply Z.mul_le_mono_nonneg_r; lia).
      lia. }
    rewrite E. apply Z.mul_le_mono_nonneg_r; lia.
  - assert (E2 : e2 = flog2 a2 (Zpos b2) - 52) by (unfold e2, e1, fl_exp in *; lia).
    assert (U1 : M1 <= 2 ^ 53).
    { unfold M1. rewrite <- (round_half_even_exact (2 ^ 53) (Zpos b1)) by lia.
      apply round_half_even_mono; [lia|].
      pose proof (mant_upper a1 (Zpos b1) A1 ltac:(lia) N1). fold e1 in H2. lia. }
    assert (L2 : 2 ^ 52 <= M2).
    { unfold M2. rewrite <- (round_half_even_exact (2 ^ 52) (Zpos b2)) by lia.
      apply round_half_even_mono; [lia|].
      pose proof (mant_lower a2 (Zpos b2) A2 ltac:(lia) E2 N2). fold e2 in H2. lia. }
    assert (P : 2 ^ (53 + - e2) <= 2 ^ (52 + - e1)) by (apply pow2_le; lia).
    rewrite !pow2_add in P by lia.
    assert (M1 * 2 ^ (- e2) <= 2 ^ 53 * 2 ^ (- e2)) by (apply Z.mul_le_mono_nonneg_r; lia).
    assert (2 ^ 52 * 2 ^ (- e1) <= M2 * 2 ^ (- e1)) by (apply Z.mul_le_mono_nonneg_r; lia).
    lia.
Qed.

Lemma fl_pos_nonneg (a : Z) (b : positive) : 0 <= a -> (0 <= fl_pos a b)%Q.
Proof.
  intros A. unfold fl_pos.
  set (e := fl_exp a (Zpos b)).
  destruct (Z.ltb_spec e 0).
  - pose proof (pow2_pos (- e) ltac:(lia)).
    assert (0 <= round_half_even (a * 2 ^ (- e)) (Zpos b))
      by (apply round_half_even_nonneg; lia).
    unfold Qle; cbn [Qnum Qden]. lia.
  - pose proof (pow2_pos e ltac:(lia)).
    assert (0 <= round_half_even a (Zpos b * 2 ^ e)) by (apply round_half_even_nonneg; lia).
    unfold Qle, inject_Z; cbn [Qnum Qden]. nia.
Qed.

Lemma fl_nonneg (q : Q) : (0 <= q)%Q -> (0 <= fl q)%Q.
Proof.
  destruct q as [a b]. unfold Qle at 1; cbn [Qnum Qden]. intros A.
  unfold fl; cbn [Qnum Qden]. destruct a as [|p|p]; [apply Qle_refl| |lia].
  apply fl_pos_nonneg. lia.
Qed.

(** Rounding to binary64 is monotone below 2 ^ 52. *)
Lemma fl_mono (q1 q2 : Q) :
  (0 <= q1)%Q -> (q1 <= q2)%Q -> (q2 < inject_Z (2 ^ 52))%Q -> (fl q1 <= fl q2)%Q.
Proof.
  intros H0 H12 Hb.
  assert (H2 : (0 <= q2)%Q) by (eapply Qle_trans; eassumption).
  destruct q1 as [a1 b1], q2 as [a2 b2].
  unfold Qle, Qlt, inject_Z in *; cbn [Qnum Qden] in *.
  unfold fl; cbn [Qnum Qden].
  destruct a1 as [|p1|p1]; [apply (fl_nonneg (a2 # b2)); unfold Qle; cbn [Qnum Qden]; lia| |lia].
  destruct a2 as [|p2|p2]; [nia| |lia].
  apply fl_pos_mono; lia.
Qed.

Lemma fl_proper (q1 q2 : Q) :
  (0 <= q1)%Q -> (q1 == q2)%Q -> (q2 < inject_Z (2 ^ 52))%Q -> (fl q1 == fl q2)%Q.
Proof.
  intros H0 He Hb. apply Qle_antisym.
  - apply fl_mono; [done| rewrite He; apply Qle_refl | done].
  - apply fl_mono.
    + rewrite <- He. done.
    + rewrite He. apply Qle_refl.
    + rewrite He. done.
Qed.

Lemma py_round2_mono (x y : Q) : (x <= y)%Q -> py_round2 x <= py_round2 y.
Proof.
  destruct x as [a b], y as [c d]. unfold Qle; simpl. intros H.
  unfold py_round2; simpl. apply round_half_even_mono_q; lia.
Qed.

Lemma py_round2_proper (x y : Q) : (x == y)%Q -> py_round2 x = py_round2 y.
Proof.
  intros H. apply Z.le_antisymm; apply py_round2_mono; rewrite H; apply Qle_refl.
Qed.


Lemma py_div_bounds (c n : Z) :
  0 <= c <= n -> 0 < n -> (0 <= py_div c n)%Q /\ (py_div c n <= 1)%Q.
Proof.
  intros Hc Hn. unfold py_div.
  assert (Q0 : (0 <= c # Z.to_pos n)%Q) by (unfold Qle; simpl; lia).
  split; [by apply fl_nonneg|].
  assert (F1 : (fl 1 == 1)%Q) by reflexivity.
  rewrite <- F1. apply fl_mono; [done| |reflexivity].
  unfold Qle; simpl. rewrite Z2Pos.id by lia. lia.
Qed.

Lemma py_mul100_bounds (x : Q) :
  (0 <= x)%Q -> (x <= 1)%Q ->
  (0 <= py_mul x (inject_Z 100))%Q /\ (py_mul x (inject_Z 100) <= inject_Z 100)%Q.
Proof.
  intros H0 H1. unfold py_mul.
  assert (P0 : (0 <= x * inject_Z 100)%Q).
  { apply Qmult_le_0_compat; [done|]. unfold Qle; simpl; lia. }
  split; [by apply fl_nonneg|].
  assert (F : (fl (inject_Z 100) == inject_Z 100)%Q) by reflexivity.
  apply (Qle_trans _ (fl (inject_Z 100))); [|rewrite F; apply Qle_refl].
  apply fl_mono; [done| |reflexivity].
  apply (Qle_trans _ (1 * inject_Z 100)); [|vm_compute; discriminate].
  apply Qmult_le_compat_r; [done|unfold Qle; simpl; lia].
Qed.

Lemma pct_range (c n : Z) : 0 <= c <= n -> 0 < n -> 0 <= pct c n <= 10000.
Proof.
  intros Hc Hn. destruct (py_div_bounds c n Hc Hn) as [D0 D1].
  destruct (py_mul100_bounds _ D0 D1) as [M0 M1].
  unfold pct. split.
  - change 0 with (py_round2 0). by apply py_round2_mono.
  - change 10000 with (py_round2 (inject_Z 100)). by apply py_round2_mono.
Qed.

Lemma pct_mono (c1 c2 n : Z) :
  0 <= c1 -> c1 <= c2 -> c2 <= n -> 0 < n -> pct c1 n <= pct c2 n.
Proof.
  intros H1 H12 H2 Hn. unfold pct, py_mul, py_div.
  apply py_round2_mono.
  destruct (py_div_bounds c1 n ltac:(lia) Hn) as [D0 _].
  destruct (py_div_bounds c2 n ltac:(lia) Hn) as [_ D1].
  apply fl_mono.
  - apply Qmult_le_0_compat; [done|unfold Qle; simpl; lia].
  - apply Qmult_le_compat_r; [|unfold Qle; simpl; lia].
    apply fl_mono; [unfold Qle; simpl; lia| unfold Qle; simpl; nia |].
    unfold Qlt; simpl. rewrite Z2Pos.id by lia. lia.
  - apply (Qle_lt_trans _ (1 * inject_Z 100)).
    + apply Qmult_le_compat_r; [done|unfold Qle; simpl; lia].
    + reflexivity.
Qed.

(** The score depends only on the ratio [c / n]. *)
Lemma pct_proper (c1 n1 c2 n2 : Z) :
  0 <= c1 <= n1 -> 0 < n1 -> 0 < n2 -> c1 * n2 = c2 * n1 -> pct c1 n1 = pct c2 n2.
Proof.
  intros H1 Hn1 Hn2 He. unfold pct. apply py_round2_proper.
  assert (Hc2 : 0 <= c2 <= n2) by nia.
  destruct (py_div_bounds c1 n1 H1 Hn1) as [D0 D1].
  destruct (py_div_bounds c2 n2 Hc2 Hn2) as [_ D1'].
  unfold py_mul. apply fl_proper.
  - apply Qmult_le_0_compat; [done|unfold Qle; simpl; lia].
  - apply Qmult_comp; [|reflexivity]. unfold py_div. apply fl_proper.
    + unfold Qle; simpl; lia.
    + unfold Qeq; simpl. rewrite !Z2Pos.id by lia. lia.
    + unfold Qlt; simpl. rewrite Z2Pos.id by lia. lia.
  - apply (Qle_lt_trans _ (1 * inject_Z 100)).
    + apply Qmult_le_compat_r; [done|unfold Qle; simpl; lia].
    + reflexivity.
Qed.

Lemma pct_all (n : Z) : 0 < n -> pct n n = 10000.
Proof.
  intros Hn. rewrite (pct_proper n n 1 1) by lia. reflexivity.
Qed.

Lemma pct_none (n : Z) : pct 0 n = 0.
Proof. reflexivity. Qed.

(** For 8 keywords the binary64 score is the exactly rounded one. *)
Lemma pct_8 (c : Z) : 0 <= c <= 8 -> pct c 8 = round_half_even (c * 100 * 100) 8.
Proof.
  intros Hc.
  assert (c = 0 \/ c = 1 \/ c = 2 \/ c = 3 \/ c = 4 \/ c = 5 \/ c = 6 \/ c = 7 \/ c = 8)
    as Hcases by lia.
  repeat destruct Hcases as [->|Hcases]; [..|subst c]; vm_compute; reflexivity.
Qed.

(* ------------------------------------------------------------------ *)
(** ** The score                                                       *)
(* ------------------------------------------------------------------ *)

Lemma match_percent_ok (jd rt : string) :
  job_keywords jd <> [] ->
  match_percent jd rt
  = Ok (pct (Z.of_nat (length (List.filter (fun kw => Py.contains (Py.lower rt) kw)
                                          (job_keywords jd))))
            (Z.of_nat (length (job_keywords jd)))).
Proof.
  intros Hne. unfold match_percent. rewrite keyword_score_count.
  destruct (job_keywords jd) as [|k ks]; [done|]. simpl. reflexivity.
Qed.

Lemma match_percent_nil (jd rt : string) :
  job_keywords jd = [] -> match_percent jd rt = Err ZeroDivisionError.
Proof. intros H. unfold match_percent. rewrite H. reflexivity. Qed.

Lemma match_percent_range (jd rt : string) (p : Z) :
  match_percent jd rt = Ok p -> 0 <= p <= 10000.
Proof.
  intros H. destruct (job_keywords jd) as [|k ks] eqn:E.
  - rewrite match_percent_nil in H by done. discriminate.
  - rewrite match_percent_ok in H by (rewrite E; discriminate).
    injection H as <-.
    pose proof (filter_length_le (fun kw => Py.contains (Py.lower rt) kw) (job_keywords jd)).
    apply pct_range; [lia|]. rewrite E; simpl; lia.
Qed.

Lemma filter_lower_map (g : string -> bool) (l : list string) :
  List.filter (fun kw => g (Py.lower kw)) (map Py.lower l)
  = List.filter g (map Py.lower l).
Proof.
  induction l as [|x l IH]; simpl; [done|].
  rewrite lower_idem, IH. reflexivity.
Qed.

(* ------------------------------------------------------------------ *)
(** ** Lemmas on strings and line splitting                            *)
(* ------------------------------------------------------------------ *)

Lemma split_on_aux_length (sep : ascii) (s : string) (cur : list ascii) :
  length (Py.split_on_aux sep s cur) = S (count_char sep s).
Proof.
  revert cur; induction s as [|c s IH]; intros cur; simpl; [done|].
  destruct (Ascii.eqb c sep); simpl; rewrite IH; done.
Qed.

Lemma split_on_aux_nonempty (sep : ascii) (s : string) (cur : list ascii) :
  Py.split_on_aux sep s cur <> [].
Proof.
  intros H. pose proof (split_on_aux_length sep s cur) as L. rewrite H in L.
  discriminate.
Qed.

Lemma string_app_nil (s : string) : (s ++ "")%string = s.
Proof. induction s as [|c s IH]; simpl; [done|]. by rewrite IH. Qed.

Lemma string_app_assoc (a b c : string) : (a ++ b ++ c)%string = ((a ++ b) ++ c)%string.
Proof. induction a as [|x a IH]; simpl; [done|]. by rewrite IH. Qed.


Lemma string_of_list_ascii_snoc (l : list ascii) (c : ascii) (s : string) :
  (string_of_list_ascii (l ++ [c]) ++ s)%string = (string_of_list_ascii l ++ String c s)%string.
Proof. induction l as [|a l IH]; simpl; [done|]. by rewrite IH. Qed.

Lemma concat_split_on_aux (sep : ascii) (s : string) (cur : list ascii) :
  String.concat (String sep EmptyString) (Py.split_on_aux sep s cur)
  = (Py.rev_string cur ++ s)%string.
Proof.
  revert cur; induction s as [|c s IH]; intros cur; simpl.
  - by rewrite string_app_nil.
  - destruct (Ascii.eqb_spec c sep) as [->|Hne].
    + pose proof (split_on_aux_nonempty sep s []) as Hn.
      destruct (Py.split_on_aux sep s []) as [|x xs] eqn:E; [done|].
      transitivity (Py.rev_string cur ++ String sep EmptyString
                      ++ String.concat (String sep EmptyString) (Py.split_on_aux sep s []))%string.
      { rewrite E. reflexivity. }
      rewrite IH. reflexivity.
    + rewrite IH. unfold Py.rev_string; simpl. apply string_of_list_ascii_snoc.
Qed.

Lemma split_on_roundtrip (t : string) :
  String.concat nl (Py.split_on Py.newline t) = t.
Proof. apply concat_split_on_aux. Qed.


(* ------------------------------------------------------------------ *)
(** ** Lemmas on the Document writer                                   *)
(* ------------------------------------------------------------------ *)

Lemma runs_text_app (rs1 rs2 : list run_item) :
  runs_text (rs1 ++ rs2) = (runs_text rs1 ++ runs_text rs2)%string.
Proof.
  induction rs1 as [|[t| |] rs IH]; simpl; [done| |by rewrite IH|by rewrite IH].
  rewrite IH. apply string_app_assoc.
Qed.

Lemma forallb_rev {A} (f : A -> bool) (l : list A) : forallb f (rev l) = forallb f l.
Proof.
  induction l as [|x l IH]; simpl; [done|].
  rewrite forallb_app, IH. simpl. rewrite andb_true_r. apply andb_comm.
Qed.

Lemma xml_ok_cons (c : ascii) (s : string) :
  xml_ok (String c s) = xml_char_ok c && xml_ok s.
Proof. reflexivity. Qed.

Lemma xml_ok_rev_string (buf : list ascii) :
  xml_ok (Py.rev_string buf) = forallb xml_char_ok buf.
Proof.
  unfold xml_ok, Py.rev_string. rewrite list_ascii_of_string_of_list_ascii.
  apply forallb_rev.
Qed.

Lemma xml_ok_app (a b : string) : xml_ok (a ++ b) = xml_ok a && xml_ok b.
Proof.
  induction a as [|c a IH]; [reflexivity|].
  change (String c a ++ b)%string with (String c (a ++ b)).
  rewrite !xml_ok_cons, IH. apply andb_assoc.
Qed.

Lemma xml_ok_concat (ls : list string) :
  xml_ok (String.concat nl ls) = forallb xml_ok ls.
Proof.
  induction ls as [|x ls IH]; [reflexivity|].
  destruct ls as [|y ys].
  - simpl. by rewrite andb_true_r.
  - change (String.concat nl (x :: y :: ys)) with (x ++ nl ++ String.concat nl (y :: ys))%string.
    rewrite !xml_ok_app, IH. reflexivity.
Qed.

Lemma xml_ok_lines (t : string) : forallb xml_ok (Py.split_on Py.newline t) = xml_ok t.
Proof. rewrite <- xml_ok_concat. by rewrite split_on_roundtrip. Qed.

Lemma flush_cons (c : ascii) (l : list ascii) :
  flush (c :: l) = if xml_ok (Py.rev_string (c :: l))
                   then Ok [RText (Py.rev_string (c :: l))] else Err xml_error.
Proof. reflexivity. Qed.

Lemma flush_ok (buf : list ascii) :
  forallb xml_char_ok buf = true ->
  exists rs, flush buf = Ok rs /\ runs_text rs = Py.rev_string buf.
Proof.
  destruct buf as [|c l]; intros H; [by exists []|].
  rewrite flush_cons, xml_ok_rev_string, H. eexists; split; [reflexivity|].
  simpl runs_text. apply string_app_nil.
Qed.



(** [run.text = s] succeeds on XML-compatible text, and the run reads
    back as the text with each "\r" turned into "\n". *)
Lemma append_text_ok (s : string) (buf : list ascii) :
  xml_ok s = true -> forallb xml_char_ok buf = true ->
  exists rs, append_text s buf = Ok rs /\
             runs_text rs = (Py.rev_string buf ++ replace_cr s)%string.
Proof.
  revert buf; induction s as [|c s IH]; intros buf Hs Hb.
  - destruct (flush_ok buf Hb) as [rs [E R]]. exists rs. cbn [append_text replace_cr].
    rewrite E, R, string_app_nil. done.
  - rewrite xml_ok_cons in Hs. apply andb_prop in Hs as [Hc Hs].
    cbn [append_text replace_cr].
    destruct (Ascii.eqb c tab_char || Ascii.eqb c Py.newline || Ascii.eqb c cr_char) eqn:Esep.
    + destruct (flush_ok buf Hb) as [rs [E R]]. rewrite E.
      destruct (IH [] Hs eq_refl) as [rest [E' R']]. rewrite E'.
      eexists; split; [reflexivity|]. rewrite runs_text_app, R. f_equal.
      destruct (Ascii.eqb_spec c tab_char) as [->|Ht].
      * simpl runs_text. rewrite R'. reflexivity.
      * cbn [runs_text]. rewrite R'. simpl Py.rev_string. cbn [String.append].
        f_equal. destruct (Ascii.eqb_spec c cr_char) as [->|Hr]; [reflexivity|].
        simpl in Esep. destruct (Ascii.eqb_spec c Py.newline) as [->|Hn]; [reflexivity|].
        discriminate.
    + assert (Hcb : forallb xml_char_ok (c :: buf) = true) by (simpl; rewrite Hc, Hb; done).
      destruct (IH (c :: buf) Hs Hcb) as [rs [E R]]. exists rs. split; [exact E|].
      rewrite R. unfold Py.rev_string. simpl rev.
      rewrite string_of_list_ascii_snoc. do 2 f_equal.
      destruct (Ascii.eqb_spec c cr_char) as [->|_]; [|reflexivity].
      rewrite orb_true_r in Esep. discriminate.
Qed.


Lemma add_paragraph_ok (d : document) (l : string) :
  xml_ok l = true -> exists p, add_paragraph d l = Ok (d ++ [p]) /\ paragraph_of_line l p.
Proof.
  intros H. unfold add_paragraph. destruct (String.eqb_spec l "") as [->|Hne].
  - exists (Paragraph []). split; [reflexivity|]. exists []. done.
  - destruct (append_text_ok l [] H eq_refl) as [rs [E R]]. rewrite E.
    exists (Paragraph rs). split; [reflexivity|]. exists rs. split; [done|]. split.
    + exact R.
    + intros; contradiction.
Qed.



Lemma fold_add_paragraph_ok (lines : list string) (d : document) :
  Forall (fun l => xml_ok l = true) lines ->
  exists ps,
    fold_left (fun acc line => match acc with Ok d => add_paragraph d line | Err e => Err e end)
      lines (Ok d) = Ok (d ++ ps) /\ Forall2 paragraph_of_line lines ps.
Proof.
  intros H. revert d; induction H as [|l lines Hl _ IH]; intros d.
  - exists []. rewrite app_nil_r. done.
  - simpl. destruct (add_paragraph_ok d l Hl) as [p [E P]]. rewrite E.
    destruct (IH (d ++ [p])) as [ps [E' P']]. exists (p :: ps).
    rewrite <- app_assoc in E'. split; [exact E'|]. constructor; done.
Qed.


Lemma build_document_ok (t : string) :
  xml_ok t = true ->
  exists ps, build_document t = Ok (Heading "Final Resume" 1 :: ps) /\
             Forall2 paragraph_of_line (Py.split_on Py.newline t) ps.
Proof.
  intros H. unfold build_document.
  destruct (fold_add_paragraph_ok (Py.split_on Py.newline t) [Heading "Final Resume" 1])
    as [ps [E P]].
  - apply List.Forall_forall. intros l Hl. rewrite <- xml_ok_lines in H.
    exact (proj1 (forallb_forall _ _) H l Hl).
  - exists ps. split; [exact E|exact P].
Qed.


Lemma paragraphs_text (lines : list string) (ps : list block) :
  Forall2 paragraph_of_line lines ps -> map block_text ps = map replace_cr lines.
Proof.
  induction 1 as [|l p ls ps [rs [-> [R _]]] _ IH]; simpl; [done|].
  rewrite R, IH. reflexivity.
Qed.

Lemma replace_cr_app (a b : string) : replace_cr (a ++ b) = (replace_cr a ++ replace_cr b)%string.
Proof. induction a as [|c a IH]; simpl; [done|]. by rewrite IH. Qed.

Lemma replace_cr_concat (ls : list string) :
  String.concat nl (map replace_cr ls) = replace_cr (String.concat nl ls).
Proof.
  induction ls as [|x ls IH]; [reflexivity|]. destruct ls as [|y ys]; [reflexivity|].
  change (String.concat nl (map replace_cr (x :: y :: ys)))
    with (replace_cr x ++ nl ++ String.concat nl (map replace_cr (y :: ys)))%string.
  change (String.concat nl (x :: y :: ys)) with (x ++ nl ++ String.concat nl (y :: ys))%string.
  rewrite IH, !replace_cr_app. reflexivity.
Qed.

Lemma replace_cr_id (t : string) : count_char cr_char t = 0%nat -> replace_cr t = t.
Proof.
  induction t as [|c t IH]; intros H; [done|]. cbn [replace_cr count_char] in *.
  destruct (Ascii.eqb c cr_char); [discriminate|]. rewrite IH by exact H. reflexivity.
Qed.

Lemma docx_plain_text_ok (t : string) (ps : list block) :
  Forall2 paragraph_of_line (Py.split_on Py.newline t) ps ->
  docx_plain_text (Heading "Final Resume" 1 :: ps) = ("Final Resume" ++ nl ++ replace_cr t)%string.
Proof.
  intros P. unfold docx_plain_text.
  change (map block_text (Heading "Final Resume" 1 :: ps)) with ("Final Resume" :: map block_text ps).
  rewrite (paragraphs_text _ _ P).
  destruct (map replace_cr (Py.split_on Py.newline t)) as [|x xs] eqn:Em.
  - apply map_eq_nil in Em. exfalso. exact (split_on_aux_nonempty _ _ _ Em).
  - change (String.concat nl ("Final Resume" :: x :: xs))
      with ("Final Resume" ++ nl ++ String.concat nl (x :: xs))%string.
    rewrite <- Em, replace_cr_concat, split_on_roundtrip. reflexivity.
Qed.

Lemma split_on_heading (t : string) :
  Py.split_on Py.newline ("Final Resume" ++ nl ++ t)%string = "Final Resume" :: Py.split_on Py.newline t.
Proof. reflexivity. Qed.


(* ------------------------------------------------------------------ *)
(** ** The match scorer                                                *)
(* ------------------------------------------------------------------ *)

(** C1 (counterexample): the score is not the count ratio times 100
    rounded to two decimals in exact arithmetic.  With 160 keywords of
    which 23 are found, 23 / 160 * 100 = 14.375 exactly, which rounds to
    14.38 (half to even), but the binary64 product is the double just
    below 14.375, and the code returns 14.37. *)
Lemma C1_float_score_differs :
  length (job_keywords jd_23_of_160) = 160%nat /\
  keyword_score (job_keywords jd_23_of_160) "python" = 23 /\
  to_option (match_percent jd_23_of_160 "python") = Some 1437 /\
  spec_match_percent jd_23_of_160 "python" = Some 1438.
Proof. split_and!; vm_compute; reflexivity. Qed.

(** C1 (amended): the keywords are the lowercased alphabetic whitespace
    tokens of the job description, duplicates counted; a keyword is found
    when it is a substring of the lowercased resume text; the score is
    [round((found / total) * 100, 2)] with the division, the product and
    the rounding done in binary64, as [spec_match_percent_binary64]
    states.  The example job description has exactly the 8 keywords
    listed, its score is (matches / 8) * 100 to two decimals for any
    resume (binary64 and exact rounding agree for 8 keywords), and 62.50
    for the example resume. *)
Theorem C1_match_score_binary64 :
  (forall jd rt, to_option (match_percent jd rt) = spec_match_percent_binary64 jd rt) /\
  job_keywords example_job_desc
    = ["looking"; "for"; "a"; "python"; "developer"; "with"; "sql"; "skills"] /\
  length (job_keywords example_job_desc) = 8%nat /\
  (forall rt, match_percent example_job_desc rt
     = Ok (round_half_even
             (Z.of_nat (length (List.filter (fun kw => Py.contains (Py.lower rt) kw)
                                            (job_keywords example_job_desc)))
              * 100 * 100) 8)) /\
  match_percent example_job_desc example_resume_text = Ok 6250.
Proof.
  split; [|split; [|split; [|split]]].
  - intros jd rt. unfold spec_match_percent_binary64; cbv zeta.
    change (map Py.lower (List.filter (fun w => Py.isalpha w) (Py.split_ws jd)))
      with (job_keywords jd).
    unfold job_keywords at 2. rewrite filter_lower_map. fold (job_keywords jd).
    destruct (job_keywords jd) as [|k ks] eqn:E.
    + rewrite match_percent_nil by done. reflexivity.
    + rewrite match_percent_ok by (rewrite E; discriminate). rewrite E. reflexivity.
  - reflexivity.
  - reflexivity.
  - intros rt. rewrite match_percent_ok by discriminate. f_equal.
    apply pct_8.
    pose proof (filter_length_le (fun kw => Py.contains (Py.lower rt) kw)
                  (job_keywords example_job_desc)) as L.
    change (length (job_keywords example_job_desc)) with 8%nat in L. lia.
  - vm_compute. reflexivity.
Qed.

(** C2 (counterexample): the division is not guarded.  A logged-in POST
    /index whose job description is empty raises ZeroDivisionError, an
    unhandled exception, instead of an InvalidInput error or a score of 0. *)
Lemma C2_empty_job_desc_raises :
  index_post (logged_in 1) [] [("job_desc", "")] (Some [Some "Python developer"])
    (fun _ => "") 0 = Err ZeroDivisionError /\
  match_percent "" example_resume_text = Err ZeroDivisionError.
Proof. split; vm_compute; reflexivity. Qed.

(** C2 (amended): for every job description with no alphabetic
    whitespace token, the score computation raises ZeroDivisionError, and
    a logged-in POST /index that reaches it fails with that exception,
    persisting no record and returning no score. *)
Theorem C2_zero_keywords_raise (sess : session) (db : list resume_rec)
    (form : list (string * string)) (file : option (list (option string)))
    (gemini : string -> string) (now uid : Z) (pages : list (option string))
    (jd : string) :
  s_user_id sess = Some uid -> file = Some pages ->
  form_get "job_desc" form = Some jd -> job_keywords jd = [] ->
  index_post sess db form file gemini now = Err ZeroDivisionError.
Proof.
  intros Hu -> Hjd Hk. unfold index_post. rewrite Hu, Hjd.
  rewrite match_percent_nil by exact Hk. reflexivity.
Qed.

Lemma C2_zero_keywords_raise_witness :
  index_post (logged_in 7) [] [("job_desc", "C++ 3.0 !!")] (Some [Some "cv"])
    (fun _ => "") 0 = Err ZeroDivisionError.
Proof.
  apply (C2_zero_keywords_raise (logged_in 7) [] [("job_desc", "C++ 3.0 !!")]
           (Some [Some "cv"]) (fun _ => "") 0 7 [Some "cv"] "C++ 3.0 !!");
    reflexivity.
Defined.

(** C3: whenever the job description has an alphabetic whitespace token,
    the score exists and lies in [0, 100] (in hundredths, [0, 10000]);
    every [Resume] row any sequence of requests can persist stores a
    score in that range. *)
Theorem C3_score_in_range :
  (forall jd rt, job_keywords jd <> [] ->
     exists p, match_percent jd rt = Ok p /\ 0 <= p <= 10000) /\
  (forall db, index_reachable db -> Forall score_in_range db).
Proof.
  split.
  - intros jd rt Hne. rewrite (match_percent_ok jd rt Hne).
    eexists; split; [reflexivity|]. apply (match_percent_range jd rt).
    apply match_percent_ok, Hne.
  - intros db Hr. induction Hr as [|db sess form file gemini now sess' db' resp Hr IH Hstep];
      [constructor|].
    unfold index_post in Hstep.
    repeat case_match; simplify_eq/=; try done.
    apply Forall_app; split; [done|]. constructor; [|constructor].
    unfold score_in_range; simpl. eapply match_percent_range; eassumption.
Qed.

Lemma C3_score_in_range_witness :
  (exists p, match_percent "Python" "python" = Ok p /\ 0 <= p <= 10000) /\
  Forall score_in_range
    [mkResume 3 ("python" ++ nl)%string "" 10000 5].
Proof.
  split.
  - apply (proj1 C3_score_in_range "Python" "python"). discriminate.
  - apply (proj2 C3_score_in_range).
    apply (reach_index [] (logged_in 3) [("job_desc", "Python")] (Some [Some "python"])
             (fun _ => "") 5
             (mkSession (Some 3) (Some "") (Some 10000) None)
             [mkResume 3 ("python" ++ nl)%string "" 10000 5]
             (Render "index.html" (CtxTransformed "" 10000))).
    + apply reach_init.
    + vm_compute. reflexivity.
Defined.

(** C4: for a fixed job description, if every keyword found in resume
    text A is also found in resume text B, then score(A) <= score(B). *)
Theorem C4_score_monotone (jd A B : string) (pA pB : Z) :
  (forall kw, In kw (job_keywords jd) ->
     Py.contains (Py.lower A) kw = true -> Py.contains (Py.lower B) kw = true) ->
  match_percent jd A = Ok pA -> match_percent jd B = Ok pB -> pA <= pB.
Proof.
  intros Hsub HA HB. destruct (job_keywords jd) as [|k ks] eqn:E.
  - rewrite match_percent_nil in HA by done. discriminate.
  - rewrite match_percent_ok in HA, HB by (rewrite E; discriminate).
    injection HA as <-. injection HB as <-.
    pose proof (filter_length_le (fun kw => Py.contains (Py.lower B) kw) (job_keywords jd)).
    assert (Hm : (length (List.filter (fun kw => Py.contains (Py.lower A) kw) (job_keywords jd))
                  <= length (List.filter (fun kw => Py.contains (Py.lower B) kw) (job_keywords jd)))%nat).
    { apply filter_length_mono. rewrite E. exact Hsub. }
    apply pct_mono; [lia|lia|lia|]. rewrite E; simpl; lia.
Qed.

Lemma C4_score_monotone_witness :
  match_percent example_job_desc "Python" = Ok 1250 /\
  match_percent example_job_desc example_resume_text = Ok 6250 /\ 1250 <= 6250.
Proof.
  split; [vm_compute; reflexivity|]. split; [vm_compute; reflexivity|].
  apply (C4_score_monotone example_job_desc "Python" example_resume_text).
  - intros kw Hin. vm_compute in Hin.
    repeat (destruct Hin as [<-|Hin]; [vm_compute; try discriminate; reflexivity|]).
    destruct Hin.
  - vm_compute. reflexivity.
  - vm_compute. reflexivity.
Defined.

(* ------------------------------------------------------------------ *)
(** ** The Document writer and /finalize                               *)
(* ------------------------------------------------------------------ *)




(* ------------------------------------------------------------------ *)
(** ** Downloads before /finalize                                      *)
(* ------------------------------------------------------------------ *)




(* ------------------------------------------------------------------ *)
(** ** Round trip through the Document writer                          *)
(* ------------------------------------------------------------------ *)

(** C7 (counterexample): the plain text read back from the exported
    document is not the input's lines modulo trailing whitespace.  For
    "Line1\r\nLine2" (lines "Line1\r" and "Line2", that is "Line1" and
    "Line2" after rstrip) the "\r" becomes a line break, so the text read
    back has the lines "Final Resume", "Line1", "" and "Line2": one line
    too many even without the heading. *)
Lemma C7_roundtrip_crlf :
  build_document crlf_text
    = Ok [Heading "Final Resume" 1; Paragraph [RText "Line1"; RBreak];
          Paragraph [RText "Line2"]] /\
  map rstrip (Py.split_on Py.newline
                (docx_plain_text [Heading "Final Resume" 1; Paragraph [RText "Line1"; RBreak];
                                  Paragraph [RText "Line2"]]))
    = ["Final Resume"; "Line1"; ""; "Line2"] /\
  map rstrip (Py.split_on Py.newline crlf_text) = ["Line1"; "Line2"] /\
  map rstrip (tail (Py.split_on Py.newline
                (docx_plain_text [Heading "Final Resume" 1; Paragraph [RText "Line1"; RBreak];
                                  Paragraph [RText "Line2"]])))
    <> map rstrip (Py.split_on Py.newline crlf_text).
Proof. split_and!; vm_compute; [reflexivity|reflexivity|reflexivity|discriminate]. Qed.

(** C7 (amended): for every text whose characters are all XML
    compatible, the plain text read back from the exported document is
    the line "Final Resume", a newline, then the input with each "\r"
    turned into "\n".  For an input without "\r", its lines read back
    are "Final Resume" followed by exactly the input's lines. *)
Theorem C7_roundtrip_text (t : string) :
  xml_ok t = true ->
  exists d, build_document t = Ok d /\
    docx_plain_text d = ("Final Resume" ++ nl ++ replace_cr t)%string /\
    (count_char cr_char t = 0%nat ->
       Py.split_on Py.newline (docx_plain_text d) = "Final Resume" :: Py.split_on Py.newline t).
Proof.
  intros H. destruct (build_document_ok t H) as [ps [E P]].
  exists (Heading "Final Resume" 1 :: ps).
  assert (T := docx_plain_text_ok t ps P).
  split_and!; [exact E|exact T|]. intros Hcr.
  rewrite T, replace_cr_id by exact Hcr. apply split_on_heading.
Qed.

Lemma C7_roundtrip_text_witness :
  exists d, build_document line1_blank_line3 = Ok d /\
    docx_plain_text d = ("Final Resume" ++ nl ++ replace_cr line1_blank_line3)%string /\
    (count_char cr_char line1_blank_line3 = 0%nat ->
       Py.split_on Py.newline (docx_plain_text d)
       = "Final Resume" :: Py.split_on Py.newline line1_blank_line3).
Proof. apply C7_roundtrip_text. reflexivity. Defined.

(* ------------------------------------------------------------------ *)
(** ** /dashboard                                                      *)
(* ------------------------------------------------------------------ *)

#[global] Instance newest_first_total : Total newest_first.
Proof. intros a b. unfold newest_first. lia. Qed.

Lemma query_resumes_owner (db : list resume_rec) (uid : Z) :
  Forall (fun r => r_user_id r = uid) (query_resumes db uid).
Proof.
  apply Forall_forall. intros r Hr. unfold query_resumes in Hr.
  apply list_elem_of_In in Hr.
  apply (Permutation_in _ (merge_sort_Permutation _ _)) in Hr.
  apply filter_In in Hr as [_ Hb]. by apply bool_decide_eq_true in Hb.
Qed.

(** C9: without an authenticated session GET /dashboard redirects to
    /login, whatever the database holds, so no record is shown; with a
    session it renders exactly that account's records (a permutation of
    them, each owned by the account) sorted newest first. *)
Theorem C9_dashboard_access :
  (forall sess db, s_user_id sess = None -> dashboard sess db = Redirect "/login") /\
  (forall sess db1 db2, s_user_id sess = None -> dashboard sess db1 = dashboard sess db2) /\
  (forall sess db uid, s_user_id sess = Some uid ->
     exists rs, dashboard sess db = Render "dashboard.html" (CtxResumes rs) /\
       Forall (fun r => r_user_id r = uid) rs /\
       rs ≡ₚ List.filter (fun r => bool_decide (r_user_id r = uid)) db /\
       Sorted newest_first rs).
Proof.
  split; [|split].
  - intros sess db H. unfold dashboard. by rewrite H.
  - intros sess db1 db2 H. unfold dashboard. by rewrite H.
  - intros sess db uid H. exists (query_resumes db uid).
    unfold dashboard. rewrite H. split; [reflexivity|]. split; [|split].
    + apply query_resumes_owner.
    + apply merge_sort_Permutation.
    + apply Sorted_merge_sort. exact newest_first_total.
Qed.

Lemma C9_dashboard_access_witness :
  dashboard empty_session dashboard_db = Redirect "/login" /\
  dashboard empty_session dashboard_db = dashboard empty_session [] /\
  (exists rs, dashboard (logged_in 1) dashboard_db = Render "dashboard.html" (CtxResumes rs) /\
     Forall (fun r => r_user_id r = 1) rs /\
     rs ≡ₚ List.filter (fun r => bool_decide (r_user_id r = 1)) dashboard_db /\
     Sorted newest_first rs).
Proof.
  destruct C9_dashboard_access as [H1 [H2 H3]].
  split; [apply H1; reflexivity|]. split; [apply H2; reflexivity|].
  apply H3. reflexivity.
Defined.

(* ------------------------------------------------------------------ *)
(** ** Routes without a session check                                  *)
(* ------------------------------------------------------------------ *)




(* ------------------------------------------------------------------ *)
(** ** Further properties: accounts                                    *)
(* ------------------------------------------------------------------ *)

Lemma fold_max_bounds (l : list Z) (a : Z) :
  a <= fold_left Z.max l a /\ (forall x, In x l -> x <= fold_left Z.max l a).
Proof.
  revert a; induction l as [|y l IH]; intros a; simpl; [split; [lia|done]|].
  destruct (IH (Z.max a y)) as [H1 H2]. split; [lia|].
  intros x [<-|Hx]; [lia|]. by apply H2.
Qed.

Lemma next_user_id_fresh (users : list user) (u : user) :
  In u users -> u_id u < next_user_id users.
Proof.
  intros Hu. unfold next_user_id.
  destruct (fold_max_bounds (map u_id users) 0) as [_ H].
  specialize (H (u_id u) (in_map u_id _ _ Hu)). lia.
Qed.

Lemma existsb_email_false (email : string) (users : list user) (u : user) :
  existsb (user_has_email email) users = false -> In u users -> u_email u <> email.
Proof.
  intros Hex Hu He. assert (existsb (user_has_email email) users = true); [|congruence].
  apply existsb_exists. exists u. split; [done|]. unfold user_has_email.
  by apply String.eqb_eq.
Qed.

Lemma find_snoc_fresh {A} (f : A -> bool) (l : list A) (x : A) :
  existsb f l = false -> List.find f (l ++ [x]) = if f x then Some x else None.
Proof.
  induction l as [|y l IH]; simpl; [done|].
  destruct (f y); [discriminate|]. exact IH.
Qed.

Lemma signup_post_ok (gen : string -> string -> string) (users : list user)
    (form : list (string * string)) (salt : string) (users' : list user) (resp : response) :
  signup_post gen users form salt = inr (users', resp) ->
  exists name email pw,
    form_get "name" form = Some name /\ form_get "email" form = Some email /\
    form_get "password" form = Some pw /\
    existsb (user_has_email email) users = false /\
    users' = users ++ [mkUser (next_user_id users) name email (gen salt pw)] /\
    resp = Redirect "/login".
Proof.
  unfold signup_post. intros H. repeat case_match; simplify_eq/=.
  do 3 eexists. repeat split; done.
Qed.

(** X1: signing up and then logging in with the same email and password
    authenticates the new account: the session's user becomes the id
    the signup assigned, and the browser goes to /index (given that
    [check_password_hash] accepts the hash [generate_password_hash]
    produced for that password). *)
Theorem X1_signup_then_login
    (gen : string -> string -> string) (check : string -> string -> bool)
    (Hhash : forall salt pw, check (gen salt pw) pw = true)
    (users users' : list user) (form : list (string * string)) (salt : string)
    (resp : response) (email pw : string) (sess : session) :
  signup_post gen users form salt = inr (users', resp) ->
  form_get "email" form = Some email -> form_get "password" form = Some pw ->
  login_post check users' sess [("email", email); ("password", pw)]
  = Ok (mkSession (Some (next_user_id users)) (s_transformed_resume sess)
                  (s_score sess) (s_final_text sess), Redirect "/index").
Proof.
  intros Hs He Hp.
  destruct (signup_post_ok _ _ _ _ _ _ Hs) as (n & e & p & _ & He' & Hp' & Hex & -> & _).
  rewrite He in He'; injection He' as <-. rewrite Hp in Hp'; injection Hp' as <-.
  unfold login_post. simpl. rewrite find_snoc_fresh by exact Hex.
  unfold user_has_email; simpl. rewrite String.eqb_refl. simpl.
  by rewrite Hhash.
Qed.

Lemma X1_signup_then_login_witness :
  login_post (fun h pw => String.eqb h pw)
    [mkUser 1 "Ann" "ann@x.io" "pw1"] empty_session
    [("email", "ann@x.io"); ("password", "pw1")]
  = Ok (mkSession (Some 1) None None None, Redirect "/index").
Proof.
  apply (X1_signup_then_login (fun _ pw => pw) (fun h pw => String.eqb h pw)
           (fun _ pw => String.eqb_refl pw) [] [mkUser 1 "Ann" "ann@x.io" "pw1"]
           [("name", "Ann"); ("email", "ann@x.io"); ("password", "pw1")] "salt"
           (Redirect "/login") "ann@x.io" "pw1" empty_session);
    reflexivity.
Defined.

(** X2: in every [User] table the requests can produce, no two accounts
    share an email and no two share an id. *)
Theorem X2_users_unique (users : list user) :
  users_reachable users -> NoDup (map u_email users) /\ NoDup (map u_id users).
Proof.
  induction 1 as [|gen users form salt users' resp Hr [IHe IHi] Hs];
    [split; constructor|].
  destruct (signup_post_ok _ _ _ _ _ _ Hs) as (n & e & p & _ & _ & _ & Hex & -> & _).
  rewrite !map_app. simpl. split; apply NoDup_app; split_and!; try done;
    try (constructor; [set_solver|constructor]);
    intros x Hx Hx'; apply list_elem_of_In, in_map_iff in Hx as (u & <- & Hu);
    apply list_elem_of_singleton in Hx'; simpl in Hx'.
  - by apply (existsb_email_false e users u).
  - pose proof (next_user_id_fresh users u Hu). lia.
Qed.

(** Two signups, Ann's then Bob's, and a third one reusing Ann's email
    that the unique constraint refuses. *)
Lemma X2_users_unique_witness :
  signup_post (fun _ pw => pw) [mkUser 1 "Ann" "ann@x.io" "p"; mkUser 2 "Bob" "bob@x.io" "q"]
    [("name", "Eve"); ("email", "ann@x.io"); ("password", "r")] "s"
  = inl (IntegrityError "email") /\
  NoDup (map u_email [mkUser 1 "Ann" "ann@x.io" "p"; mkUser 2 "Bob" "bob@x.io" "q"]) /\
  NoDup (map u_id [mkUser 1 "Ann" "ann@x.io" "p"; mkUser 2 "Bob" "bob@x.io" "q"]).
Proof.
  split; [reflexivity|].
  apply X2_users_unique.
  apply (users_signup (fun _ pw => pw) [mkUser 1 "Ann" "ann@x.io" "p"]
           [("name", "Bob"); ("email", "bob@x.io"); ("password", "q")] "s" _
           (Redirect "/login")).
  - apply (users_signup (fun _ pw => pw) []
             [("name", "Ann"); ("email", "ann@x.io"); ("password", "p")] "s" _
             (Redirect "/login") users_init).
    reflexivity.
  - reflexivity.
Defined.

(* ------------------------------------------------------------------ *)
(** ** Further properties: logout and POST /index                      *)
(* ------------------------------------------------------------------ *)

(** X5: after GET /logout the session is empty: the browser is sent to
    /login, and GET /index, POST /index (whatever it submits) and GET
    /dashboard all redirect to /login without touching the database. *)
Theorem X5_logout_locks_routes (sess : session) (db : list resume_rec)
    (form : list (string * string)) (file : option (list (option string)))
    (gemini : string -> string) (now : Z) :
  let '(s, r) := logout sess in
  s = empty_session /\ r = Redirect "/login" /\
  index_get s = Redirect "/login" /\
  index_post s db form file gemini now = Ok (s, db, Redirect "/login") /\
  dashboard s db = Redirect "/login".
Proof. repeat split. Qed.

Lemma lstrip_list (s : string) :
  list_ascii_of_string (lstrip s) = lstrip_l (list_ascii_of_string s).
Proof.
  induction s as [|c s IH]; simpl; [done|]. by destruct (Py.is_space c).
Qed.

Lemma string_rev_list (s : string) :
  list_ascii_of_string (string_rev s) = rev (list_ascii_of_string s).
Proof. unfold string_rev. apply list_ascii_of_string_of_list_ascii. Qed.

Lemma lstrip_l_hd (l : list ascii) : hd_not_space (lstrip_l l).
Proof.
  induction l as [|c l IH]; intros d Hd; simpl in *; [discriminate|].
  destruct (Py.is_space c) eqn:E; [by apply IH|]. simpl in Hd. congruence.
Qed.

Lemma lstrip_l_suffix (l : list ascii) : exists pre, l = pre ++ lstrip_l l.
Proof.
  induction l as [|c l [pre IH]]; simpl; [by exists []|].
  destruct (Py.is_space c); [exists (c :: pre); simpl; by rewrite <- IH|].
  by exists [].
Qed.

(** The first and the last character of [s.strip()] are not whitespace. *)
Lemma py_strip_trimmed (s : string) :
  hd_not_space (list_ascii_of_string (py_strip s)) /\
  hd_not_space (rev (list_ascii_of_string (py_strip s))).
Proof.
  unfold py_strip. rewrite string_rev_list, lstrip_list, string_rev_list, lstrip_list.
  set (M := rev (lstrip_l (list_ascii_of_string s))).
  split.
  - intros c Hc. destruct (lstrip_l_suffix M) as [pre Hpre].
    assert (Hm : hd_error (rev M) = Some c).
    { rewrite Hpre, rev_app_distr.
      destruct (rev (lstrip_l M)) as [|d r]; [discriminate|]. exact Hc. }
    unfold M in Hm. rewrite rev_involutive in Hm. exact (lstrip_l_hd _ c Hm).
  - rewrite rev_involutive. apply lstrip_l_hd.
Qed.

(** X7: the transformed resume a successful POST /index stores is the
    model's reply to the rewrite prompt, built from the stored extracted
    text and the submitted job description, stripped: its first and its
    last character are not whitespace. *)
Theorem X7_stored_text_stripped (sess sess' : session) (db db' : list resume_rec)
    (form : list (string * string)) (file : option (list (option string)))
    (gemini : string -> string) (now : Z) (resp : response) :
  index_post sess db form file gemini now = Ok (sess', db', resp) ->
  Forall (fun r => exists jd, form_get "job_desc" form = Some jd /\
            r_transformed_text r = py_strip (gemini (rewrite_prompt (r_original_text r) jd)) /\
            hd_not_space (list_ascii_of_string (r_transformed_text r)) /\
            hd_not_space (rev (list_ascii_of_string (r_transformed_text r))))
    (List.skipn (length db) db').
Proof.
  intros H. unfold index_post in H.
  repeat case_match; simplify_eq/=.
  - rewrite drop_app_length. constructor; [|constructor]. simpl.
    eexists. split; [reflexivity|].
    split; [reflexivity|]. apply py_strip_trimmed.
  - rewrite drop_all. constructor.
Qed.

Lemma X7_stored_text_stripped_witness :
  Forall (fun r => exists jd, form_get "job_desc" [("job_desc", "Python")] = Some jd /\
            r_transformed_text r
            = py_strip ((fun _ => "  Py dev" ++ nl)%string (rewrite_prompt (r_original_text r) jd)) /\
            hd_not_space (list_ascii_of_string (r_transformed_text r)) /\
            hd_not_space (rev (list_ascii_of_string (r_transformed_text r))))
    (List.skipn 0 [mkResume 3 ("python" ++ nl)%string "Py dev" 10000 5]).
Proof.
  apply (X7_stored_text_stripped (logged_in 3)
           (mkSession (Some 3) (Some "Py dev") (Some 10000) None) []
           [mkResume 3 ("python" ++ nl)%string "Py dev" 10000 5]
           [("job_desc", "Python")] (Some [Some "python"]) (fun _ => "  Py dev" ++ nl)%string 5
           (Render "index.html" (CtxTransformed "Py dev" 10000))).
  vm_compute. reflexivity.
Defined.

(* ------------------------------------------------------------------ *)
(** ** Further properties: keywords and score                          *)
(* ------------------------------------------------------------------ *)

Lemma is_alpha_lower_char (c : ascii) :
  Py.is_alpha_char (Py.lower_char c) = Py.is_alpha_char c.
Proof. destruct c as [[] [] [] [] [] [] [] []]; reflexivity. Qed.

Lemma all_alpha_lower (s : string) : Py.all_alpha (Py.lower s) = Py.all_alpha s.
Proof. induction s as [|c s IH]; simpl; [done|]. by rewrite is_alpha_lower_char, IH. Qed.

Lemma isalpha_lower (s : string) : Py.isalpha (Py.lower s) = Py.isalpha s.
Proof. destruct s as [|c s]; [done|]. apply (all_alpha_lower (String c s)). Qed.

Lemma job_keywords_shape (jd : string) :
  Forall (fun k => Py.isalpha k = true /\ Py.lower k = k) (job_keywords jd).
Proof.
  unfold job_keywords. apply Forall_map, Forall_forall.
  intros w Hw. apply list_elem_of_In, filter_In in Hw as [_ Hw].
  by rewrite isalpha_lower, lower_idem.
Qed.

Lemma filter_all_true {A} (f : A -> bool) (l : list A) :
  Forall (fun x => f x = true) l -> List.filter f l = l.
Proof. induction 1 as [|x l Hx _ IH]; simpl; [done|]. by rewrite Hx, IH. Qed.

Lemma filter_all_false {A} (f : A -> bool) (l : list A) :
  Forall (fun x => f x = false) l -> List.filter f l = [].
Proof. induction 1 as [|x l Hx _ IH]; simpl; [done|]. by rewrite Hx, IH. Qed.

Lemma match_percent_all_found (jd rt : string) :
  job_keywords jd <> [] ->
  Forall (fun kw => Py.contains (Py.lower rt) kw = true) (job_keywords jd) ->
  match_percent jd rt = Ok 10000.
Proof.
  intros Hne Hall. rewrite match_percent_ok by exact Hne.
  rewrite (filter_all_true (fun kw => Py.contains (Py.lower rt) kw) _ Hall).
  f_equal. apply pct_all. destruct (job_keywords jd); [done|]. simpl. lia.
Qed.

Lemma match_percent_none_found (jd rt : string) :
  job_keywords jd <> [] ->
  Forall (fun kw => Py.contains (Py.lower rt) kw = false) (job_keywords jd) ->
  match_percent jd rt = Ok 0.
Proof.
  intros Hne Hnone. rewrite match_percent_ok by exact Hne.
  rewrite (filter_all_false (fun kw => Py.contains (Py.lower rt) kw) _ Hnone).
  exact (f_equal Ok (pct_none _)).
Qed.

(** X8: every keyword is a non-empty, all-alphabetic, lowercase string
    (for text in the Latin-1 range, where [str.lower] maps letters to
    letters). *)
Theorem X8_keywords_alpha_lower (jd : string) :
  Forall (fun k => Py.isalpha k = true /\ Py.lower k = k) (job_keywords jd).
Proof. apply job_keywords_shape. Qed.

(** X9: when the job description has keywords, the score is 100.00 if
    every keyword occurs in the lowercased resume text and 0.00 if none
    does. *)
Theorem X9_score_extremes (jd rt : string) :
  job_keywords jd <> [] ->
  (Forall (fun kw => Py.contains (Py.lower rt) kw = true) (job_keywords jd) ->
     match_percent jd rt = Ok 10000) /\
  (Forall (fun kw => Py.contains (Py.lower rt) kw = false) (job_keywords jd) ->
     match_percent jd rt = Ok 0).
Proof.
  intros Hne. split; [apply match_percent_all_found | apply match_percent_none_found];
    exact Hne.
Qed.

Lemma X9_score_extremes_witness :
  match_percent "SQL and Python" "python, sql and more" = Ok 10000 /\
  match_percent "SQL and Python" "Rust" = Ok 0.
Proof.
  split.
  - apply (proj1 (X9_score_extremes "SQL and Python" "python, sql and more" ltac:(discriminate))).
    repeat constructor.
  - apply (proj2 (X9_score_extremes "SQL and Python" "Rust" ltac:(discriminate))).
    repeat constructor.
Defined.

Lemma extract_resume_text_empty (pages : list (option string)) :
  Forall (fun p => p = None \/ p = Some ""%string) pages ->
  extract_resume_text pages = ""%string.
Proof.
  unfold extract_resume_text.
  assert (Hgen : forall acc, Forall (fun p => p = None \/ p = Some ""%string) pages ->
    fold_left (fun acc page =>
      match page with
      | Some text => if String.eqb text "" then acc else (acc ++ text ++ nl)%string
      | None => acc
      end) pages acc = acc).
  { intros acc H. revert acc. induction H as [|p pages [->| ->] _ IH]; intros acc;
      simpl; [done| |]; apply IH. }
  apply Hgen.
Qed.

Lemma contains_empty_alpha (kw : string) :
  Py.isalpha kw = true -> Py.contains ""%string kw = false.
Proof. destruct kw; [discriminate|]. reflexivity. Qed.

(** X10: when no page of the uploaded PDF yields text, the extracted
    resume text is empty and a job description with keywords scores
    0.00: no keyword is a substring of the empty text. *)
Theorem X10_textless_pdf_scores_zero (pages : list (option string)) (jd : string) :
  Forall (fun p => p = None \/ p = Some ""%string) pages ->
  job_keywords jd <> [] ->
  extract_resume_text pages = ""%string /\
  match_percent jd (extract_resume_text pages) = Ok 0.
Proof.
  intros Hp Hne. rewrite extract_resume_text_empty by exact Hp.
  split; [done|]. apply match_percent_none_found; [exact Hne|].
  eapply Forall_impl; [apply job_keywords_shape|].
  intros kw [Ha _]. simpl. by apply contains_empty_alpha.
Qed.

Lemma X10_textless_pdf_scores_zero_witness :
  extract_resume_text [None; Some ""%string] = ""%string /\
  match_percent "Python developer" (extract_resume_text [None; Some ""%string]) = Ok 0.
Proof.
  apply X10_textless_pdf_scores_zero.
  - constructor; [left; done|]. constructor; [right; done|]. constructor.
  - discriminate.
Defined.

Lemma split_ws_aux_app_space (s1 s2 : string) (sp : ascii) (cur : list ascii) :
  Py.is_space sp = true ->
  Py.split_ws_aux (s1 ++ String sp s2)%string cur
  = Py.split_ws_aux s1 cur ++ Py.split_ws_aux s2 [].
Proof.
  intros Hsp. revert cur; induction s1 as [|c s1 IH]; intros cur; simpl.
  - rewrite Hsp. by destruct cur.
  - destruct (Py.is_space c); [destruct cur; rewrite IH; reflexivity|]. apply IH.
Qed.

Lemma job_keywords_app_space (jd1 jd2 : string) :
  job_keywords (jd1 ++ " " ++ jd2)%string = job_keywords jd1 ++ job_keywords jd2.
Proof.
  change (jd1 ++ " " ++ jd2)%string with (jd1 ++ String " "%char jd2)%string.
  unfold job_keywords, Py.split_ws.
  rewrite (split_ws_aux_app_space jd1 jd2 " "%char [] eq_refl).
  by rewrite List.filter_app, map_app.
Qed.

(** X11: joining two job descriptions with a space joins their keyword
    lists; in particular, pasting a job description twice leaves the
    score unchanged (duplicates count, in numerator and denominator, and
    the binary64 score depends only on their ratio). *)
Theorem X11_keywords_concat (jd1 jd2 jd rt : string) :
  job_keywords (jd1 ++ " " ++ jd2)%string = job_keywords jd1 ++ job_keywords jd2 /\
  match_percent (jd ++ " " ++ jd)%string rt = match_percent jd rt.
Proof.
  split; [apply job_keywords_app_space|].
  destruct (job_keywords jd) as [|k ks] eqn:E.
  - rewrite !match_percent_nil; [done| done |]. by rewrite job_keywords_app_space, E.
  - assert (Hne2 : job_keywords (jd ++ " " ++ jd)%string <> []).
    { rewrite job_keywords_app_space, E. discriminate. }
    rewrite (match_percent_ok _ _ Hne2), match_percent_ok by (rewrite E; discriminate).
    f_equal. rewrite job_keywords_app_space, List.filter_app, !length_app.
    pose proof (filter_length_le (fun kw => Py.contains (Py.lower rt) kw) (job_keywords jd)).
    assert (0 < Z.of_nat (length (job_keywords jd))) by (rewrite E; simpl; lia).
    apply pct_proper; lia.
Qed.

(* ------------------------------------------------------------------ *)
(** ** Further properties: exports and the dashboard                   *)
(* ------------------------------------------------------------------ *)



(** X13: the Word export is one file shared by every session: with the
    process in the application's root directory, after two successful
    POST /finalize requests, from any sessions, GET /download/docx from
    any session serves the document built from the later request's
    text. *)
Theorem X13_last_finalize_wins (e : env) (s1 s2 s1' s2' s : session)
    (fs fs1 fs2 : filesystem) (form1 form2 : list (string * string))
    (r1 r2 : response) (t2 : string) :
  cwd e = root_path e ->
  finalize e s1 fs form1 = Ok (s1', fs1, r1) ->
  finalize e s2 fs1 form2 = Ok (s2', fs2, r2) ->
  form_get "final_text" form2 = Some t2 ->
  exists d2, build_document t2 = Ok d2 /\
    download_docx e s fs2 = Ok (SendFile docx_path (DocxFile d2)).
Proof.
  intros Hr _ H2 Ht. unfold finalize in H2. rewrite Ht in H2.
  destruct (build_document t2) as [d2|err] eqn:E; [|discriminate]. simplify_eq/=.
  exists d2. split; [reflexivity|].
  unfold download_docx, send_file. rewrite <- Hr, lookup_insert_eq. reflexivity.
Qed.

Lemma X13_last_finalize_wins_witness :
  exists d2, build_document line1_blank_line3 = Ok d2 /\
    download_docx app_env empty_session
      (<[abs_path "/app" docx_path
         := DocxFile [Heading "Final Resume" 1; Paragraph [RText "Line1"]; Paragraph [];
                      Paragraph [RText "Line3"]]]>
       (<[abs_path "/app" docx_path
          := DocxFile [Heading "Final Resume" 1; Paragraph [RText "Ann"]]]> ∅))
    = Ok (SendFile docx_path (DocxFile d2)).
Proof.
  apply (X13_last_finalize_wins app_env (logged_in 1) (logged_in 2)
           (mkSession (Some 1) None None (Some "Ann"))
           (mkSession (Some 2) None None (Some line1_blank_line3)) empty_session ∅
           (<[abs_path "/app" docx_path
              := DocxFile [Heading "Final Resume" 1; Paragraph [RText "Ann"]]]> ∅)
           (<[abs_path "/app" docx_path
              := DocxFile [Heading "Final Resume" 1; Paragraph [RText "Line1"]; Paragraph [];
                           Paragraph [RText "Line3"]]]>
            (<[abs_path "/app" docx_path
               := DocxFile [Heading "Final Resume" 1; Paragraph [RText "Ann"]]]> ∅))
           [("final_text", "Ann")] [("final_text", line1_blank_line3)]
           (Redirect "/download-options") (Redirect "/download-options")
           line1_blank_line3); reflexivity.
Defined.

Lemma query_resumes_snoc (db : list resume_rec) (row : resume_rec) (v : Z) :
  query_resumes (db ++ [row]) v
  ≡ₚ (if bool_decide (r_user_id row = v) then [row] else []) ++ query_resumes db v.
Proof.
  unfold query_resumes. rewrite !merge_sort_Permutation, List.filter_app. simpl.
  destruct (bool_decide (r_user_id row = v)); simpl;
    [by rewrite Permutation_app_comm | by rewrite app_nil_r].
Qed.

(** X14: a successful POST /index by an account adds exactly the new row
    to that account's dashboard list and leaves every other account's
    dashboard list unchanged (as a multiset; each list stays sorted
    newest first). *)
Theorem X14_index_then_dashboard (sess sess' : session) (db db' : list resume_rec)
    (form : list (string * string)) (file : option (list (option string)))
    (gemini : string -> string) (now uid : Z) (resp : response) :
  s_user_id sess = Some uid ->
  index_post sess db form file gemini now = Ok (sess', db', resp) ->
  exists row, r_user_id row = uid /\ r_timestamp row = now /\
    query_resumes db' uid ≡ₚ row :: query_resumes db uid /\
    (forall v, v <> uid -> query_resumes db' v ≡ₚ query_resumes db v).
Proof.
  intros Hu H. unfold index_post in H. rewrite Hu in H.
  repeat case_match; simplify_eq/=.
  match goal with |- context [db ++ [?row]] => exists row end.
  split_and!; [reflexivity|reflexivity| |].
  - rewrite query_resumes_snoc. simpl. by rewrite bool_decide_eq_true_2.
  - intros v Hv. rewrite query_resumes_snoc. simpl.
    by rewrite bool_decide_eq_false_2.
Qed.

Lemma X14_index_then_dashboard_witness :
  exists row, r_user_id row = 3 /\ r_timestamp row = 5 /\
    query_resumes [mkResume 3 ("python" ++ nl)%string "" 10000 5] 3
      ≡ₚ row :: query_resumes [] 3 /\
    (forall v, v <> 3 ->
       query_resumes [mkResume 3 ("python" ++ nl)%string "" 10000 5] v ≡ₚ query_resumes [] v).
Proof.
  apply (X14_index_then_dashboard (logged_in 3)
           (mkSession (Some 3) (Some "") (Some 10000) None) []
           [mkResume 3 ("python" ++ nl)%string "" 10000 5]
           [("job_desc", "Python")] (Some [Some "python"]) (fun _ => "") 5 3
           (Render "index.html" (CtxTransformed "" 10000))).
  - reflexivity.
  - vm_compute. reflexivity.
Defined.
